(** * Sparse matrix multiplication for regridding weights (xesmf/smm.py)

    A shallow embedding of [read_weights], [_parse_coords_and_values],
    [apply_weights], [add_nans_to_weights] and [_combine_weight_multipoly],
    followed by the properties of the natural-language specification.

    Conventions of the embedding.
    - Weight and field values range over an abstract scalar type [V] with
      zero, addition and multiplication ([Scalar]); the not-a-number marker
      is a distinguished element ([HasNaN]).  Results that depend on the
      algebra of the scalars are stated under the commutative semiring laws
      ([ScalarLaws]); rounding is not modelled.
    - Python exceptions are values of [exn]; a computation that may raise
      returns a [result].
    - Arrays are stored in C order: a shape and the flat list of elements.
    - A [sparse.COO] matrix is its shape and its stored entries in storage
      order.  The constructor sorts the entries and sums duplicates
      ([COO_init]); range checks on coordinates made inside the sparse
      libraries are not part of the model, the invariants of the data model
      are the predicates [canonical] and [cols_in_range]. *)

From Stdlib Require Import ZArith String List Lia DecimalString.
From stdpp Require Import base option gmap strings list sorting.

Local Open Scope Z_scope.
Local Open Scope nat_scope.

(** ** Exceptions and results *)

Inductive exn :=
| IOError (msg : string)
| ValueError (msg : string)
| IndexError (msg : string)
| AssertionError (msg : string).

Inductive result (A : Type) :=
| Ok (a : A)
| Raise (e : exn).
Arguments Ok {A} a.
Arguments Raise {A} e.

(** Sequencing: the first exception raised ends the computation. *)
#[export] Instance result_bind : MBind result := fun A B k r =>
  match r with
  | Ok a => k a
  | Raise e => Raise e
  end.


(** ** Text helpers: newline, decimal numerals, tuple rendering, search *)

Definition nl : string := String (Ascii.ascii_of_nat 10) EmptyString.

Definition str_of_nat (n : nat) : string := NilEmpty.string_of_uint (Nat.to_uint n).

(** [str(t)] for a tuple of non-negative integers: "()", "(5,)", "(2, 3)". *)
Fixpoint join_comma (l : list string) : string :=
  match l with
  | [] => ""
  | [s] => s
  | s :: t => s +:+ ", " +:+ join_comma t
  end.

Definition tuple_str (t : list nat) : string :=
  match t with
  | [n] => "(" +:+ str_of_nat n +:+ ",)"
  | _ => "(" +:+ join_comma (map str_of_nat t) +:+ ")"
  end.

(** numpy's rendering of a shape in its messages: "(2,3)", "(5,)". *)
Fixpoint join_tight (l : list string) : string :=
  match l with
  | [] => ""
  | [s] => s
  | s :: t => s +:+ "," +:+ join_tight t
  end.

Definition np_shape_str (t : list nat) : string :=
  match t with
  | [n] => "(" +:+ str_of_nat n +:+ ",)"
  | _ => "(" +:+ join_tight (map str_of_nat t) +:+ ")"
  end.

Fixpoint contains (part s : string) : bool :=
  String.prefix part s ||
  match s with
  | EmptyString => false
  | String _ s' => contains part s'
  end.

(** ** Scalars *)

Class Scalar (V : Type) := {
  vzero : V;
  vadd : V -> V -> V;
  vmul : V -> V -> V
}.

Class HasNaN (V : Type) := vnan : V.

Class ScalarLaws (V : Type) `{Scalar V} : Prop := {
  vadd_comm : forall x y : V, vadd x y = vadd y x;
  vadd_assoc : forall x y z : V, vadd x (vadd y z) = vadd (vadd x y) z;
  vadd_zero_l : forall x : V, vadd vzero x = x;
  vmul_zero_l : forall x : V, vmul vzero x = vzero;
  vmul_add_distr_r : forall x y z : V, vmul (vadd x y) z = vadd (vmul x z) (vmul y z)
}.

(** Exact integer weights: an instance satisfying the laws. *)
#[export] Instance Z_Scalar : Scalar Z := {| vzero := 0%Z; vadd := Z.add; vmul := Z.mul |}.

(** Integers extended with a not-a-number element that absorbs. *)
Inductive xnum := Num (z : Z) | NaN.

Definition xadd (a b : xnum) : xnum :=
  match a, b with Num x, Num y => Num (x + y)%Z | _, _ => NaN end.
Definition xmul (a b : xnum) : xnum :=
  match a, b with Num x, Num y => Num (x * y)%Z | _, _ => NaN end.

#[export] Instance xnum_Scalar : Scalar xnum := {| vzero := Num 0; vadd := xadd; vmul := xmul |}.
#[export] Instance xnum_HasNaN : HasNaN xnum := NaN.

(** ** Labelled arrays

    xr.DataArray: payload, dimension names, name. *)
Record DataArray (D : Type) := mkDataArray {
  da_data : D;
  da_dims : list string;
  da_name : option string
}.
Arguments mkDataArray {D}.
Arguments da_data {D}.
Arguments da_dims {D}.
Arguments da_name {D}.

(** ** Sparse matrices *)

Section Sparse.
Context {V : Type} `{Scalar V}.

(** One stored entry: ((row, col), value). *)
Definition entry : Type := (Z * Z) * V.
Definition e_row (e : entry) : Z := fst (fst e).
Definition e_col (e : entry) : Z := snd (fst e).
Definition e_val (e : entry) : V := snd e.

(** Row-major order on coordinates (the order of the linearised index). *)
Definition key_ltb (k k' : Z * Z) : bool :=
  (fst k <? fst k')%Z || ((fst k =? fst k')%Z && (snd k <? snd k')%Z).
Definition key_eqb (k k' : Z * Z) : bool :=
  (fst k =? fst k')%Z && (snd k =? snd k')%Z.

(** sparse.COO: shape (rows, columns) and the stored entries. *)
Record COO := mkCOO {
  coo_shape : nat * nat;
  coo_entries : list entry
}.

(** scipy.sparse.coo_matrix: parallel row/col/data arrays, duplicates and any
    order allowed. *)
Record coo_matrix := mk_coo_matrix {
  sp_shape : nat * nat;
  sp_entries : list entry
}.

(** Insert one entry into a sorted duplicate-free list, adding the value to
    an entry already stored at the same coordinates. *)
Fixpoint coo_insert (k : Z * Z) (v : V) (l : list entry) : list entry :=
  match l with
  | [] => [(k, v)]
  | (k', v') :: t =>
      if key_ltb k k' then (k, v) :: l
      else if key_eqb k k' then (k', vadd v' v) :: t
      else (k', v') :: coo_insert k v t
  end.

(** [_sort_indices] followed by [_sum_duplicates]: a stable sort on the
    coordinates, duplicates summed in their original order. *)
Definition canonicalize (l : list entry) : list entry :=
  fold_left (fun acc e => coo_insert (fst e) (snd e) acc) l [].

(** np.stack([row, col]): the two index arrays must have the same shape. *)
Definition np_stack (row col : list Z) : result (list (Z * Z)) :=
  if length row =? length col then Ok (combine row col)
  else Raise (ValueError "all input arrays must have the same shape").

(** sps.COO(coords, data, shape). *)
Definition COO_init (crds : list (Z * Z)) (data : list V) (shape : nat * nat) : result COO :=
  if negb (length data =? length crds) then
    Raise (ValueError ("The data length does not match the coordinates given." +:+ nl +:+
                       "len(data) = " +:+ str_of_nat (length data) +:+ ", but " +:+
                       str_of_nat (length crds) +:+ " coords specified."))
  else Ok (mkCOO shape (canonicalize (combine crds data))).

(** sps.COO.from_scipy_sparse *)
Definition from_scipy_sparse (m : coo_matrix) : COO :=
  mkCOO (sp_shape m) (canonicalize (sp_entries m)).

(** ** Weight sources *)

(** A weights dataset seen through the fields the code reads: index variables
    are integer arrays, the weight variable is an array of scalars.  A field
    that is [None] is absent from the dataset. *)
Record Dataset := mkDataset {
  ds_col : option (list Z);
  ds_row : option (list Z);
  ds_S : option (list V)
}.

Definition ds_variables (ds : Dataset) : gset string :=
  (if ds_col ds is Some _ then {["col"]} else ∅) ∪
  (if ds_row ds is Some _ then {["row"]} else ∅) ∪
  (if ds_S ds is Some _ then {["S"]} else ∅).

(** The dictionary of ESMPy's get_weights_dict, seen the same way. *)
Record WeightsDict := mkWeightsDict {
  d_col_src : option (list Z);
  d_row_dst : option (list Z);
  d_weights : option (list V)
}.

Definition dict_keys (d : WeightsDict) : gset string :=
  (if d_col_src d is Some _ then {["col_src"]} else ∅) ∪
  (if d_row_dst d is Some _ then {["row_dst"]} else ∅) ∪
  (if d_weights d is Some _ then {["weights"]} else ∅).

Inductive table_source :=
| SrcPath (p : string)            (* str or Path *)
| SrcDataset (ds : Dataset)       (* xr.Dataset *)
| SrcDict (d : WeightsDict).      (* dict *)

Inductive source :=
| SrcTable (t : table_source)
| SrcCooMatrix (m : coo_matrix)       (* scipy.sparse.coo_matrix *)
| SrcDataArray (w : DataArray COO)    (* xr.DataArray *)
| SrcCOO (c : COO).                   (* sparse.COO *)

(** The files on disk: every path that exists holds a readable dataset. *)
Abbreviation filesystem := (gmap string Dataset).

Definition sub1 (a : list Z) : list Z := map (fun i => (i - 1)%Z) a.

Definition msg_dataset : string :=
  "Weights dataset should have variables `col`, `row` and `S` storing the indices and " +:+
  "values of weights.".
Definition msg_dict : string :=
  "Weights dictionary should have keys `col_src`, `row_dst` and `weights` storing the " +:+
  "indices and values of weights.".

(** Lines 63-71: the schema check and the three reads of a dataset. *)
Definition dataset_fields (ds_w : Dataset) : result (list Z * list Z * list V) :=
  if negb (bool_decide ({["col"]} ∪ {["row"]} ∪ {["S"]} ⊆ ds_variables ds_w)) then
    Raise (ValueError msg_dataset)
  else
    Ok (sub1 (default [] (ds_col ds_w)), sub1 (default [] (ds_row ds_w)),
        default [] (ds_S ds_w)).

(** Lines 74-81: the same for a dictionary. *)
Definition dict_fields (indata : WeightsDict) : result (list Z * list Z * list V) :=
  if negb (bool_decide ({["col_src"]} ∪ {["row_dst"]} ∪ {["weights"]} ⊆ dict_keys indata)) then
    Raise (ValueError msg_dict)
  else
    Ok (sub1 (default [] (d_col_src indata)), sub1 (default [] (d_row_dst indata)),
        default [] (d_weights indata)).

Definition _parse_coords_and_values (fs : filesystem) (indata : table_source)
    (n_in n_out : nat) : result COO :=
  fields ←
    match indata with
    | SrcPath p =>
        ds_w ← match fs !! p with
               | None => Raise (IOError ("Weights file not found on disk." +:+ nl +:+ p))
               | Some ds => Ok ds
               end;
        dataset_fields ds_w
    | SrcDataset ds_w => dataset_fields ds_w
    | SrcDict d => dict_fields d
    end;
  let '(col, row, s) := fields in
  crds ← np_stack row col;
  COO_init crds s (n_out, n_in).

Definition weights_array (c : COO) : DataArray COO :=
  mkDataArray c ["out_dim"; "in_dim"] (Some "weights").

Definition read_weights (fs : filesystem) (weights : source) (n_in n_out : nat)
    : result (DataArray COO) :=
  match weights with
  | SrcTable t =>
      c ← _parse_coords_and_values fs t n_in n_out;
      Ok (weights_array c)
  | SrcCooMatrix m => Ok (weights_array (from_scipy_sparse m))
  | SrcDataArray w => Ok w
  | SrcCOO c => Ok (weights_array c)
  end.

(** ** Dense arrays (numpy.ndarray), C order *)

Record ndarray := mk_ndarray {
  nd_shape : list nat;
  nd_flat : list V;
  nd_c_contiguous : bool          (* flags['C_CONTIGUOUS'] *)
}.

Definition shape_size (s : list nat) : nat := fold_right Nat.mul 1 s.

(** The elements of an m x n array, row after row. *)
Definition tabulate2 (m n : nat) (f : nat -> nat -> V) : list V :=
  flat_map (fun i => map (f i) (seq 0 n)) (seq 0 m).

Definition nrows (a : ndarray) : nat := nth 0 (nd_shape a) 0.
Definition ncols (a : ndarray) : nat := nth 1 (nd_shape a) 0.
Definition get2 (a : ndarray) (i j : nat) : V := nth (i * ncols a + j) (nd_flat a) vzero.

(** a.reshape(-1, k): the unknown dimension is size / k; numpy refuses the
    request when k is 0 or does not divide the size. *)
Definition reshape_infer (a : ndarray) (k : nat) : result ndarray :=
  let size := shape_size (nd_shape a) in
  if (k =? 0) || negb (size mod k =? 0) then
    Raise (ValueError ("cannot reshape array of size " +:+ str_of_nat size +:+
                       " into shape (" +:+ str_of_nat k +:+ ")"))
  else Ok (mk_ndarray [size / k; k] (nd_flat a) true).

(** a.reshape(newshape) with every dimension given. *)
Definition reshape (a : ndarray) (newshape : list nat) : result ndarray :=
  let size := shape_size (nd_shape a) in
  if negb (shape_size newshape =? size) then
    Raise (ValueError ("cannot reshape array of size " +:+ str_of_nat size +:+
                       " into shape " +:+ np_shape_str newshape))
  else Ok (mk_ndarray newshape (nd_flat a) true).

(** a.T for a two-dimensional array. *)
Definition transpose (a : ndarray) : ndarray :=
  mk_ndarray [ncols a; nrows a] (tabulate2 (ncols a) (nrows a) (fun j i => get2 a i j)) false.

(** The entries stored in row r, in storage order. *)
Definition row_entries (r : Z) (l : list entry) : list entry :=
  List.filter (fun e => (e_row e =? r)%Z) l.

(** weights.dot(b) for a sparse matrix and a dense two-dimensional array:
    each output element accumulates, from 0, value * b[col, j] over the
    entries stored in its row. *)
Definition coo_dot (weights : COO) (b : ndarray) : ndarray :=
  mk_ndarray [fst (coo_shape weights); ncols b]
    (tabulate2 (fst (coo_shape weights)) (ncols b) (fun i j =>
       fold_left (fun val e => vadd val (vmul (e_val e) (get2 b (Z.to_nat (e_col e)) j)))
                 (row_entries (Z.of_nat i) (coo_entries weights)) vzero))
    true.

(** ** apply_weights *)

Definition msg_horizontal (shape_horiz : list nat) (shape_in : nat * nat) : string :=
  "The horizontal shape of input data is " +:+ tuple_str shape_horiz +:+
  ", different from that ofthe regridder " +:+ tuple_str [fst shape_in; snd shape_in] +:+ "!".
Definition msg_n_in : string := "ny_in * nx_in should equal to weights.shape[1]".
Definition msg_n_out : string := "ny_out * nx_out should equal to weights.shape[0]".
Definition msg_contiguous : string :=
  "Input array is not C_CONTIGUOUS. Will affect performance.".

(** The warnings issued, and the value returned or the exception raised. *)
Definition apply_weights (weights : COO) (indata : ndarray) (shape_in shape_out : nat * nat)
    : list string * result ndarray :=
  let warnings := if nd_c_contiguous indata then [] else [msg_contiguous] in
  let shape_horiz := skipn (length (nd_shape indata) - 2) (nd_shape indata) in
  let extra_shape := firstn (length (nd_shape indata) - 2) (nd_shape indata) in
  (warnings,
   if negb (bool_decide (shape_horiz = [fst shape_in; snd shape_in])) then
     Raise (AssertionError (msg_horizontal shape_horiz shape_in))
   else if negb (fst shape_in * snd shape_in =? snd (coo_shape weights)) then
     Raise (AssertionError msg_n_in)
   else if negb (fst shape_out * snd shape_out =? fst (coo_shape weights)) then
     Raise (AssertionError msg_n_out)
   else
     indata_flat ← reshape_infer indata (fst shape_in * snd shape_in);
     let outdata_flat := transpose (coo_dot weights (transpose indata_flat)) in
     reshape outdata_flat (extra_shape ++ [fst shape_out; snd shape_out])).

(** ** add_nans_to_weights *)

(** scipy.sparse.lil_matrix: per row, the column indices and the values. *)
Record lil_matrix := mk_lil {
  lil_shape : nat * nat;
  lil_rows : list (list Z);
  lil_data : list (list V)
}.

Definition to_scipy_sparse (c : COO) : coo_matrix :=
  mk_coo_matrix (coo_shape c) (coo_entries c).

(** coo_matrix.tolil() goes through CSR: row by row, columns sorted and
    duplicates summed. *)
Definition tolil (m : coo_matrix) : lil_matrix :=
  let per_row := map (fun r => canonicalize (row_entries (Z.of_nat r) (sp_entries m)))
                     (seq 0 (fst (sp_shape m))) in
  mk_lil (sp_shape m) (map (map e_col) per_row) (map (map e_val) per_row).

(** lil_matrix to coo_matrix: the stored elements, row after row. *)
Definition lil_tocoo (M : lil_matrix) : coo_matrix :=
  mk_coo_matrix (lil_shape M)
    (flat_map (fun ird => map (fun cv => ((Z.of_nat (fst ird), fst cv), snd cv))
                              (combine (fst (snd ird)) (snd (snd ird))))
              (combine (seq 0 (length (lil_rows M))) (combine (lil_rows M) (lil_data M)))).

Context `{HasNaN V}.

(** l == [] *)
Definition is_nil {A} (l : list A) : bool :=
  match l with
  | [] => true
  | _ => false
  end.

(** One iteration of the loop of lines 164-166. *)
Definition fill_row (M : lil_matrix) (krow : nat) : lil_matrix :=
  let row := default [] (lil_rows M !! krow) in
  let dat := default [] (lil_data M !! krow) in
  mk_lil (lil_shape M)
         (<[krow := if is_nil row then [0%Z] else row]> (lil_rows M))
         (<[krow := if is_nil dat then [vnan] else dat]> (lil_data M)).

Definition add_nans_to_weights (weights : DataArray COO) : DataArray COO :=
  let M := tolil (to_scipy_sparse (da_data weights)) in
  let M := fold_left fill_row (seq 0 (length (lil_rows M))) M in
  mkDataArray (from_scipy_sparse (lil_tocoo M)) (da_dims weights) (da_name weights).

(** ** _combine_weight_multipoly *)

(** The value at (r, c) of a sparse matrix: the stored values there, summed. *)
Definition dense_at (l : list entry) (r c : nat) : V :=
  fold_left (fun acc e => vadd acc (e_val e))
            (List.filter (fun e => key_eqb (fst e) (Z.of_nat r, Z.of_nat c)) l) vzero.

Definition todense (c : COO) : ndarray :=
  mk_ndarray [fst (coo_shape c); snd (coo_shape c)]
    (tabulate2 (fst (coo_shape c)) (snd (coo_shape c)) (dense_at (coo_entries c))) true.

(** The position of a dimension name. *)
Fixpoint axis_of (dims : list string) (d : string) : option nat :=
  match dims with
  | [] => None
  | x :: t => if String.eqb x d then Some 0 else S <$> axis_of t d
  end.

Definition msg_no_dim (d : string) (dims : list string) : string :=
  "Dimensions {'" +:+ d +:+ "'} do not exist.".

(** The positions a boolean mask selects. *)
Definition mask_positions (mask : list bool) : list nat :=
  List.filter (fun j => nth j mask false) (seq 0 (length mask)).

(** a.isel(d=mask) on a two-dimensional array, mask a boolean array. *)
Definition isel (a : DataArray ndarray) (d : string) (mask : list bool)
    : result (DataArray ndarray) :=
  match axis_of (da_dims a) d with
  | None => Raise (ValueError (msg_no_dim d (da_dims a)))
  | Some ax =>
      let A := da_data a in
      let ps := mask_positions mask in
      if negb (length mask =? nth ax (nd_shape A) 0) then
        Raise (IndexError "Boolean array size does not match the indexed dimension")
      else
        Ok (mkDataArray
              (match ax with
               | 0 => mk_ndarray [length ps; ncols A]
                        (tabulate2 (length ps) (ncols A) (fun i j => get2 A (nth i ps 0) j)) true
               | _ => mk_ndarray [nrows A; length ps]
                        (tabulate2 (nrows A) (length ps) (fun i j => get2 A i (nth j ps 0))) true
               end)
              (da_dims a) (da_name a))
  end.

(** a.sum(d) on a two-dimensional array: a one-dimensional array over the
    other dimension. *)
Definition sum_dim (a : DataArray ndarray) (d : string) : result (DataArray ndarray) :=
  match axis_of (da_dims a) d with
  | None => Raise (ValueError (msg_no_dim d (da_dims a)))
  | Some ax =>
      let A := da_data a in
      Ok (mkDataArray
            (match ax with
             | 0 => mk_ndarray [ncols A]
                      (map (fun j => fold_left vadd (map (fun i => get2 A i j) (seq 0 (nrows A))) vzero)
                           (seq 0 (ncols A))) true
             | _ => mk_ndarray [nrows A]
                      (map (fun i => fold_left vadd (map (fun j => get2 A i j) (seq 0 (ncols A))) vzero)
                           (seq 0 (nrows A))) true
             end)
            (List.filter (fun x => negb (String.eqb x d)) (da_dims a)) (da_name a))
  end.

(** xr.concat(objs, d) of one-dimensional arrays along a new first
    dimension d. *)
Definition xr_concat (objs : list (DataArray ndarray)) (d : string)
    : result (DataArray ndarray) :=
  match objs with
  | [] => Raise (ValueError "must supply at least one object to concatenate")
  | first :: _ =>
      Ok (mkDataArray
            (mk_ndarray [length objs; nrows (da_data first)]
                        (flat_map (fun o => nd_flat (da_data o)) objs) true)
            (d :: da_dims first) (da_name first))
  end.

(** a.transpose(d0, d1) on a two-dimensional array. *)
Definition xr_transpose (a : DataArray ndarray) (d0 d1 : string) : result (DataArray ndarray) :=
  if bool_decide (da_dims a = [d0; d1]) then Ok a
  else if bool_decide (da_dims a = [d1; d0]) then
    Ok (mkDataArray (transpose (da_data a)) [d0; d1] (da_name a))
  else Raise (ValueError ("('" +:+ d0 +:+ "', '" +:+ d1 +:+
                          "') must be a permutation of the dimensions")).

(** indexes.max() *)
Definition np_max (a : list Z) : result Z :=
  match a with
  | [] => Raise (ValueError
            "zero-size array to reduction operation maximum which has no identity")
  | x :: t => Ok (fold_left Z.max t x)
  end.

(** range(n) *)
Definition py_range (n : Z) : list Z := map Z.of_nat (seq 0 (Z.to_nat n)).

(** The loop of lines 192-194: one summed column per index, in order. *)
Fixpoint summed_columns (weights : DataArray ndarray) (indexes : list Z) (todo : list Z)
    : result (list (DataArray ndarray)) :=
  match todo with
  | [] => Ok []
  | i :: rest =>
      sel ← isel weights "in_dim" (map (fun x => (x =? i)%Z) indexes);
      col ← sum_dim sel "in_dim";
      columns ← summed_columns weights indexes rest;
      Ok (col :: columns)
  end.

Definition _combine_weight_multipoly (weights : DataArray COO) (indexes : list Z)
    : result (DataArray ndarray) :=
  let dense := mkDataArray (todense (da_data weights)) (da_dims weights) (da_name weights) in
  m ← np_max indexes;
  columns ← summed_columns dense indexes (py_range (m + 1));
  c ← xr_concat columns "in_dim";
  xr_transpose c "out_dim" "in_dim".

End Sparse.

(** * Vocabulary of the specification *)

Section Vocabulary.
Context {V : Type} `{Scalar V} `{HasNaN V}.
Local Abbreviation Dataset := (@Dataset V).
Local Abbreviation WeightsDict := (@WeightsDict V).
Local Abbreviation COO := (@COO V).
Local Abbreviation coo_matrix := (@coo_matrix V).
Local Abbreviation entry := (@entry V).
Local Abbreviation ndarray := (@ndarray V).
Local Abbreviation filesystem := (gmap string Dataset).
Local Abbreviation table_source := (@table_source V).
Local Abbreviation source := (@source V).

Definition is_some {A} (o : option A) : bool := if o is Some _ then true else false.

(** The coordinate list and the operator built from three parallel columns. *)
Definition shifted_coords (row col : list Z) : list (Z * Z) := combine (sub1 row) (sub1 col).

Definition operator_of_columns (row col : list Z) (s : list V) (n_in n_out : nat)
    : DataArray COO :=
  weights_array (mkCOO (n_out, n_in) (canonicalize (combine (shifted_coords row col) s))).

(** The dataset a tabular source denotes: given directly, or read from an
    existing path. *)
Definition denotes (fs : filesystem) (t : table_source) (ds : Dataset) : Prop :=
  t = SrcDataset ds \/ exists p, t = SrcPath p /\ fs !! p = Some ds.






Definition raises_schema_error {A} (r : result A) : Prop :=
  r = Raise (ValueError msg_dataset) \/ r = Raise (ValueError msg_dict).

(** What lines 63-84 do with three optional columns. *)
Definition table_outcome (c r : option (list Z)) (s : option (list V)) (msg : string)
    (n_in n_out : nat) : result COO :=
  match c, r, s with
  | Some col, Some row, Some vals =>
      crds ← np_stack (sub1 row) (sub1 col); COO_init crds vals (n_out, n_in)
  | _, _, _ => Raise (ValueError msg)
  end.

Definition key_lt (e e' : entry) : Prop := key_ltb (fst e) (fst e') = true.

(** The class invariant of sparse.COO: entries strictly increasing in
    row-major order (hence no duplicates). *)
Definition sorted_entries (l : list entry) : Prop := StronglySorted key_lt l.

Definition rows_in_range (n_out : nat) (l : list entry) : Prop :=
  Forall (fun e => (0 <= e_row e < Z.of_nat n_out)%Z) l.

Definition canonical (c : COO) : Prop :=
  sorted_entries (coo_entries c) /\ rows_in_range (fst (coo_shape c)) (coo_entries c).

(** What the loop leaves in row r. *)
Definition filled_row (r : nat) (l : list entry) : list entry :=
  match row_entries (Z.of_nat r) l with
  | [] => [((Z.of_nat r, 0%Z), vnan)]
  | R => R
  end.

Definition filled (n_out : nat) (l : list entry) : list entry :=
  flat_map (fun r => filled_row r l) (seq 0 n_out).

Definition fix_rows (r : list Z) : list Z := if is_nil r then [0%Z] else r.
Definition fix_data (d : list V) : list V := if is_nil d then [vnan] else d.

Definition cols_in_range (weights : COO) : Prop :=
  Forall (fun e => (0 <= e_col e < Z.of_nat (snd (coo_shape weights)))%Z) (coo_entries weights).

(** The accumulation the sparse product performs for output row r, reading
    the dense operand through x. *)
Definition row_dot (l : list entry) (r : nat) (x : nat -> V) : V :=
  fold_left (fun val e => vadd val (vmul (e_val e) (x (Z.to_nat (e_col e)))))
            (row_entries (Z.of_nat r) l) vzero.

(** The sum of a list of scalars, from zero, left to right. *)
Definition vsum (l : list V) : V := fold_left vadd l vzero.


(** The three conditions apply_weights asserts. *)
Definition shapes_agree (weights : COO) (indata : ndarray) (shape_in shape_out : nat * nat) : Prop :=
  skipn (length (nd_shape indata) - 2) (nd_shape indata) = [fst shape_in; snd shape_in] /\
  fst shape_in * snd shape_in = snd (coo_shape weights) /\
  fst shape_out * snd shape_out = fst (coo_shape weights).

(** The columns whose index is g, in increasing order. *)
Definition group_members (indexes : list Z) (g : Z) : list nat :=
  List.filter (fun c => (nth c indexes 0%Z =? g)%Z) (seq 0 (length indexes)).

(** The sum, in row r, of the listed columns of the operator. *)
Definition column_sum (weights : COO) (r : nat) (cols : list nat) : V :=
  fold_left vadd (map (dense_at (coo_entries weights) r) cols) vzero.

(** The summed column the loop appends for index g. *)
Definition summed_column (weights : DataArray COO) (indexes : list Z) (g : Z)
    : DataArray ndarray :=
  mkDataArray
    (mk_ndarray [fst (coo_shape (da_data weights))]
       (map (fun r => column_sum (da_data weights) r (group_members indexes g))
            (seq 0 (fst (coo_shape (da_data weights))))) true)
    ["out_dim"] (da_name weights).

End Vocabulary.

(** * Vocabulary of the further properties *)

Section FurtherVocabulary.
Context {V : Type} `{Scalar V}.
Local Abbreviation COO := (@COO V).
Local Abbreviation entry := (@entry V).
Local Abbreviation ndarray := (@ndarray V).

(** a + b for two arrays of the same shape. *)
Definition nd_add (a b : ndarray) : ndarray :=
  mk_ndarray (nd_shape a) (zip_with vadd (nd_flat a) (nd_flat b)) (nd_c_contiguous a).


(** The columns whose index is not negative. *)
Definition kept_columns (indexes : list Z) : list nat :=
  List.filter (fun c => (0 <=? nth c indexes 0%Z)%Z) (seq 0 (length indexes)).

End FurtherVocabulary.

(** ** Concrete data used in the examples *)

Definition example_weights : DataArray (@COO xnum) :=
  weights_array (mkCOO (3, 2) [((0, 0), Num 2); ((0, 1), Num 0); ((2, 1), Num 7)]%Z).

Definition example_operator : DataArray (@COO Z) :=
  weights_array (mkCOO (2, 3) [((0, 0), 2); ((0, 1), 3); ((1, 1), 5); ((1, 2), 7)]%Z).

Definition small_operator : @COO Z :=
  mkCOO (3, 2) [((0, 0), 2); ((0, 1), 3); ((2, 1), 7)]%Z.

Definition small_field : @ndarray Z := mk_ndarray [2; 1; 2] [10; 20; 30; 40]%Z true.

Definition small_table : @Dataset Z :=
  mkDataset (Some [3; 1]%Z) (Some [2; 1]%Z) (Some [7; 5]%Z).


Definition unsorted_table : @Dataset Z :=
  mkDataset (Some [2; 1; 2]%Z) (Some [2; 1; 2]%Z) (Some [4; 5; 6]%Z).

Definition ragged_table : @Dataset Z :=
  mkDataset (Some [1; 2]%Z) (Some [1]%Z) (Some [5]%Z).

Definition full_weights : DataArray (@COO xnum) :=
  weights_array (mkCOO (2, 2) [((0, 0), Num 1); ((1, 1), Num 0)]%Z).

Definition example_field : @ndarray xnum := mk_ndarray [1; 2] [Num 10; Num 20] true.

Definition unlabelled_operator : DataArray (@COO Z) :=
  mkDataArray small_operator ["a"; "b"] None.

(** * The scalar instances *)

#[export] Instance Z_ScalarLaws : ScalarLaws Z.
Proof. split; intros; cbn; lia. Qed.

(** * Properties of weight ingestion *)

Section IngestionFacts.
Context {V : Type} `{Scalar V}.
Local Abbreviation Dataset := (@Dataset V).
Local Abbreviation WeightsDict := (@WeightsDict V).
Local Abbreviation COO := (@COO V).
Local Abbreviation filesystem := (gmap string Dataset).
Local Abbreviation table_source := (@table_source V).
Local Abbreviation source := (@source V).
Local Abbreviation coo_matrix := (@coo_matrix V).

Lemma dataset_schema_check (ds : Dataset) :
  bool_decide ({["col"]} ∪ {["row"]} ∪ {["S"]} ⊆ ds_variables ds)
  = is_some (ds_col ds) && is_some (ds_row ds) && is_some (ds_S ds).
Proof. destruct ds as [[?|] [?|] [?|]]; vm_compute; reflexivity. Qed.

Lemma dict_schema_check (d : WeightsDict) :
  bool_decide ({["col_src"]} ∪ {["row_dst"]} ∪ {["weights"]} ⊆ dict_keys d)
  = is_some (d_col_src d) && is_some (d_row_dst d) && is_some (d_weights d).
Proof. destruct d as [[?|] [?|] [?|]]; vm_compute; reflexivity. Qed.


Lemma dict_fields_present (d : WeightsDict) col row s :
  d_col_src d = Some col -> d_row_dst d = Some row -> d_weights d = Some s ->
  dict_fields d = Ok (sub1 col, sub1 row, s).
Proof.
  intros Hc Hr Hs. unfold dict_fields.
  rewrite dict_schema_check, Hc, Hr, Hs. reflexivity.
Qed.

Lemma dataset_fields_absent (ds : Dataset) :
  is_some (ds_col ds) && is_some (ds_row ds) && is_some (ds_S ds) = false ->
  dataset_fields ds = Raise (ValueError msg_dataset).
Proof. intros Hn. unfold dataset_fields. rewrite dataset_schema_check, Hn. reflexivity. Qed.

Lemma dict_fields_absent (d : WeightsDict) :
  is_some (d_col_src d) && is_some (d_row_dst d) && is_some (d_weights d) = false ->
  dict_fields d = Raise (ValueError msg_dict).
Proof. intros Hn. unfold dict_fields. rewrite dict_schema_check, Hn. reflexivity. Qed.

Lemma sub1_length (a : list Z) : length (sub1 a) = length a.
Proof. unfold sub1. apply length_map. Qed.

Lemma build_from_columns (row col : list Z) (s : list V) (n_in n_out : nat) :
  length col = length row -> length s = length row ->
  (crds ← np_stack (sub1 row) (sub1 col); COO_init crds s (n_out, n_in))
  = Ok (mkCOO (n_out, n_in) (canonicalize (combine (shifted_coords row col) s))).
Proof.
  intros Hc Hs. unfold np_stack. rewrite !sub1_length, Hc, Nat.eqb_refl. cbn.
  unfold COO_init. rewrite length_combine, !sub1_length, Hc, Hs, Nat.min_id, Nat.eqb_refl.
  reflexivity.
Qed.


Lemma parse_dict (fs : filesystem) d col row s n_in n_out :
  d_col_src d = Some col -> d_row_dst d = Some row -> d_weights d = Some s ->
  length col = length row -> length s = length row ->
  _parse_coords_and_values fs (SrcDict d) n_in n_out
  = Ok (mkCOO (n_out, n_in) (canonicalize (combine (shifted_coords row col) s))).
Proof.
  intros Hc Hr Hs Hl1 Hl2. unfold _parse_coords_and_values.
  rewrite (dict_fields_present _ _ _ _ Hc Hr Hs). cbn.
  now apply build_from_columns.
Qed.

Lemma COO_init_shape crds (s : list V) shape c :
  COO_init crds s shape = Ok c -> coo_shape c = shape.
Proof.
  unfold COO_init. destruct (negb _); [discriminate |].
  intros [= <-]. reflexivity.
Qed.

Lemma parse_shape (fs : filesystem) t n_in n_out c :
  _parse_coords_and_values fs t n_in n_out = Ok c -> coo_shape c = (n_out, n_in).
Proof.
  unfold _parse_coords_and_values.
  destruct (match t with SrcPath _ => _ | _ => _ end) as [[[col row] s] | e]; cbn; [| discriminate].
  destruct (np_stack row col) as [crds | e]; cbn; [| discriminate].
  apply COO_init_shape.
Qed.


(** C6. Whenever a tabular source (path, dataset or dictionary) is ingested,
    the operator has the declared shape (n_out, n_in), whatever the extent
    of the indices. *)
Theorem ingest_table_declared_shape (fs : filesystem) t n_in n_out w :
  read_weights fs (SrcTable t) n_in n_out = Ok w ->
  coo_shape (da_data w) = (n_out, n_in).
Proof.
  unfold read_weights.
  destruct (_parse_coords_and_values fs t n_in n_out) as [c | e] eqn:Hp; cbn; [| discriminate].
  intros [= <-]. cbn. now apply parse_shape in Hp.
Qed.


Lemma parse_cases (fs : filesystem) (t : table_source) n_in n_out :
  _parse_coords_and_values fs t n_in n_out =
  match t with
  | SrcPath p =>
      match fs !! p with
      | None => Raise (IOError ("Weights file not found on disk." +:+ nl +:+ p))
      | Some ds => table_outcome (ds_col ds) (ds_row ds) (ds_S ds) msg_dataset n_in n_out
      end
  | SrcDataset ds => table_outcome (ds_col ds) (ds_row ds) (ds_S ds) msg_dataset n_in n_out
  | SrcDict d => table_outcome (d_col_src d) (d_row_dst d) (d_weights d) msg_dict n_in n_out
  end.
Proof.
  assert (Hds : forall ds : Dataset,
             (fields ← dataset_fields ds;
              let '(col, row, s) := fields in
              crds ← np_stack row col; COO_init crds s (n_out, n_in))
             = table_outcome (ds_col ds) (ds_row ds) (ds_S ds) msg_dataset n_in n_out).
  { intros ds. unfold dataset_fields. rewrite dataset_schema_check.
    destruct (ds_col ds), (ds_row ds), (ds_S ds); reflexivity. }
  unfold _parse_coords_and_values. destruct t as [p | ds | d].
  - destruct (fs !! p) as [ds |]; [apply Hds | reflexivity].
  - apply Hds.
  - unfold dict_fields. rewrite dict_schema_check.
    destruct (d_col_src d), (d_row_dst d), (d_weights d); reflexivity.
Qed.









(** C8. A DataArray source is returned as it is, so ingesting the result of
    an ingestion changes nothing; a failed ingestion stays the same failure. *)
Theorem ingest_idempotent (fs : filesystem) (n_in n_out : nat) :
  (forall w : DataArray COO, read_weights fs (SrcDataArray w) n_in n_out = Ok w) /\
  (forall src : source,
      (w ← read_weights fs src n_in n_out; read_weights fs (SrcDataArray w) n_in n_out)
      = read_weights fs src n_in n_out).
Proof.
  split; [reflexivity |].
  intros src. destruct (read_weights fs src n_in n_out); reflexivity.
Qed.

(** C10. For a scipy coo_matrix, a sparse.COO or a DataArray source the
    declared sizes play no part: the result is the same for all n_in and
    n_out, ingestion succeeds whatever the shape of the input, the operator
    keeps that shape, and a DataArray keeps its own dimension names and
    name. *)
Theorem ingest_sparse_ignores_declared_sizes (fs : filesystem) (n_in n_out n_in' n_out' : nat) :
  (forall m : coo_matrix,
      read_weights fs (SrcCooMatrix m) n_in n_out = read_weights fs (SrcCooMatrix m) n_in' n_out' /\
      exists w, read_weights fs (SrcCooMatrix m) n_in n_out = Ok w /\
                coo_shape (da_data w) = sp_shape m) /\
  (forall c : COO,
      read_weights fs (SrcCOO c) n_in n_out = read_weights fs (SrcCOO c) n_in' n_out' /\
      exists w, read_weights fs (SrcCOO c) n_in n_out = Ok w /\
                coo_shape (da_data w) = coo_shape c) /\
  (forall w : DataArray COO,
      read_weights fs (SrcDataArray w) n_in n_out = read_weights fs (SrcDataArray w) n_in' n_out' /\
      exists w', read_weights fs (SrcDataArray w) n_in n_out = Ok w' /\
                 coo_shape (da_data w') = coo_shape (da_data w) /\
                 da_dims w' = da_dims w /\ da_name w' = da_name w).
Proof.
  repeat split; eexists; repeat split; reflexivity.
Qed.

End IngestionFacts.

(** * Properties of add_nans_to_weights *)

Section MissingRowFacts.
Context {V : Type} `{Scalar V} `{HasNaN V}.
Local Abbreviation COO := (@COO V).
Local Abbreviation entry := (@entry V).
Local Abbreviation lil_matrix := (@lil_matrix V).

Lemma key_ltb_spec (k k' : Z * Z) :
  key_ltb k k' = true <-> (fst k < fst k' \/ (fst k = fst k' /\ snd k < snd k'))%Z.
Proof. unfold key_ltb. destruct k, k'; cbn. lia. Qed.

Lemma key_eqb_spec (k k' : Z * Z) : key_eqb k k' = true <-> k = k'.
Proof.
  unfold key_eqb. destruct k as [a b], k' as [a' b']; cbn.
  rewrite andb_true_iff, !Z.eqb_eq. split; [intros [-> ->]; reflexivity | intros [= -> ->]; auto].
Qed.

Lemma coo_insert_last (k : Z * Z) (v : V) (l : list entry) :
  Forall (fun e => key_ltb (fst e) k = true) l ->
  coo_insert k v l = l ++ [(k, v)].
Proof.
  induction 1 as [| [k' v'] l Hlt _ IH]; [reflexivity |].
  cbn in Hlt |- *. apply key_ltb_spec in Hlt.
  destruct (key_ltb k k') eqn:E1.
  { apply key_ltb_spec in E1. lia. }
  destruct (key_eqb k k') eqn:E2.
  { apply key_eqb_spec in E2. subst. lia. }
  now rewrite IH.
Qed.

Lemma fold_insert_sorted (l acc : list entry) :
  sorted_entries (acc ++ l) ->
  fold_left (fun a e => coo_insert (fst e) (snd e) a) l acc = acc ++ l.
Proof.
  revert acc. induction l as [| e l IH]; intros acc Hs; cbn.
  - now rewrite app_nil_r.
  - destruct e as [k v]. cbn [fst snd]. rewrite coo_insert_last.
    + rewrite IH; rewrite <- app_assoc; [reflexivity | exact Hs].
    + apply Forall_forall. intros x Hx.
      apply (StronglySorted_app_1_elem_of _ _ _ x (k, v) Hs Hx). left.
Qed.

Lemma canonicalize_sorted (l : list entry) : sorted_entries l -> canonicalize l = l.
Proof. intros Hs. unfold canonicalize. now rewrite fold_insert_sorted. Qed.

Lemma sorted_filter (f : entry -> bool) (l : list entry) :
  sorted_entries l -> sorted_entries (List.filter f l).
Proof.
  induction 1 as [| e l Hs IH Hall]; cbn; [constructor |].
  destruct (f e); [| exact IH].
  constructor; [exact IH |].
  apply List.Forall_forall. intros x Hx. apply filter_In in Hx as [Hx _].
  rewrite List.Forall_forall in Hall. now apply Hall.
Qed.

Lemma map_is_fmap {A B} (f : A -> B) (l : list A) : map f l = f <$> l.
Proof. reflexivity. Qed.

Lemma fill_rows_lookup (k : nat) (M : lil_matrix) (i : nat) :
  lil_rows (fold_left fill_row (seq 0 k) M) !! i
  = (if decide (i < k) then fix_rows <$> lil_rows M !! i else lil_rows M !! i) /\
  lil_data (fold_left fill_row (seq 0 k) M) !! i
  = (if decide (i < k) then fix_data <$> lil_data M !! i else lil_data M !! i).
Proof.
  induction k as [| k IH].
  - cbn. split; reflexivity.
  - rewrite seq_S, fold_left_app. cbn [fold_left Nat.add].
    set (M' := fold_left fill_row (seq 0 k) M) in *.
    destruct IH as [IHr IHd].
    assert (Hk : lil_rows M' !! k = lil_rows M !! k /\ lil_data M' !! k = lil_data M !! k).
    { clear IHr IHd. subst M'.
      assert (G : forall j, j <= k ->
                  lil_rows (fold_left fill_row (seq 0 j) M) !! k = lil_rows M !! k /\
                  lil_data (fold_left fill_row (seq 0 j) M) !! k = lil_data M !! k).
      { induction j as [| j IHj]; intros Hj; [split; reflexivity |].
        rewrite seq_S, fold_left_app. cbn [fold_left Nat.add]. unfold fill_row at 1 3. cbn.
        rewrite !list_lookup_insert_ne by lia. apply IHj. lia. }
      apply G. lia. }
    destruct Hk as [Hkr Hkd].
    unfold fill_row. cbn [lil_rows lil_data].
    destruct (decide (i = k)) as [-> | Hne].
    + destruct (decide (k < S k)); [| lia]. rewrite Hkr, Hkd. split.
      * destruct (lil_rows M !! k) as [r |] eqn:E.
        -- rewrite list_lookup_insert_eq; [reflexivity |].
           apply lookup_lt_Some with r. now rewrite Hkr.
        -- rewrite list_insert_ge; [now rewrite Hkr |].
           apply lookup_ge_None. now rewrite Hkr.
      * destruct (lil_data M !! k) as [d |] eqn:E.
        -- rewrite list_lookup_insert_eq; [reflexivity |].
           apply lookup_lt_Some with d. now rewrite Hkd.
        -- rewrite list_insert_ge; [now rewrite Hkd |].
           apply lookup_ge_None. now rewrite Hkd.
    + rewrite !list_lookup_insert_ne by congruence. rewrite IHr, IHd.
      destruct (decide (i < k)), (decide (i < S k)); try lia; split; reflexivity.
Qed.

Lemma fill_rows_shape (k : nat) (M : lil_matrix) :
  lil_shape (fold_left fill_row (seq 0 k) M) = lil_shape M.
Proof.
  induction k as [| k IH]; [reflexivity |].
  rewrite seq_S, fold_left_app. cbn. exact IH.
Qed.

Lemma fill_all_rows (M : lil_matrix) :
  length (lil_data M) = length (lil_rows M) ->
  fold_left fill_row (seq 0 (length (lil_rows M))) M
  = mk_lil (lil_shape M) (map fix_rows (lil_rows M)) (map fix_data (lil_data M)).
Proof.
  intros Hlen.
  set (M' := fold_left fill_row (seq 0 (length (lil_rows M))) M).
  assert (Hr : lil_rows M' = map fix_rows (lil_rows M)).
  { apply list_eq. intros i. rewrite map_is_fmap, list_lookup_fmap.
    subst M'. rewrite (proj1 (fill_rows_lookup _ M i)).
    destruct (decide (i < length (lil_rows M))); [reflexivity |].
    rewrite (proj2 (lookup_ge_None _ _)) by lia. reflexivity. }
  assert (Hd : lil_data M' = map fix_data (lil_data M)).
  { apply list_eq. intros i. rewrite map_is_fmap, list_lookup_fmap.
    subst M'. rewrite (proj2 (fill_rows_lookup _ M i)).
    destruct (decide (i < length (lil_rows M))); [reflexivity |].
    rewrite (proj2 (lookup_ge_None _ _)) by lia. reflexivity. }
  assert (Hs : lil_shape M' = lil_shape M) by apply fill_rows_shape.
  destruct M' as [s r d]. cbn in *. congruence.
Qed.

Lemma combine_map_map {A B C} (f : A -> B) (g : A -> C) (l : list A) :
  combine (map f l) (map g l) = map (fun x => (f x, g x)) l.
Proof. induction l as [| x l IH]; cbn; [reflexivity | now rewrite IH]. Qed.

Lemma combine_self_map {A B} (g : A -> B) (l : list A) :
  combine l (map g l) = map (fun x => (x, g x)) l.
Proof. induction l as [| x l IH]; cbn; [reflexivity | now rewrite IH]. Qed.

Lemma flat_map_map {A B C} (f : B -> list C) (g : A -> B) (l : list A) :
  flat_map f (map g l) = flat_map (fun x => f (g x)) l.
Proof. induction l as [| x l IH]; cbn; [reflexivity | now rewrite IH]. Qed.

Lemma row_entries_row (r : Z) (l : list entry) :
  Forall (fun e => e_row e = r) (row_entries r l).
Proof.
  apply List.Forall_forall. intros e He. apply filter_In in He as [_ He].
  now apply Z.eqb_eq in He.
Qed.

Lemma rebuild_row (r : Z) (X : list entry) :
  Forall (fun e => e_row e = r) X ->
  map (fun cv : Z * V => ((r, fst cv), snd cv)) (combine (map e_col X) (map e_val X)) = X.
Proof.
  induction 1 as [| [[r' c] v] X Hr _ IH]; [reflexivity |].
  cbn in Hr |- *. subst r'. now rewrite IH.
Qed.

Lemma rebuild_filled_row (r : nat) (l : list entry) :
  map (fun cv : Z * V => ((Z.of_nat r, fst cv), snd cv))
      (combine (fix_rows (map e_col (row_entries (Z.of_nat r) l)))
               (fix_data (map e_val (row_entries (Z.of_nat r) l))))
  = filled_row r l.
Proof.
  unfold filled_row. pose proof (row_entries_row (Z.of_nat r) l) as Hrow.
  destruct (row_entries (Z.of_nat r) l) as [| e X]; [reflexivity |].
  change (fix_rows (map e_col (e :: X))) with (map e_col (e :: X)).
  change (fix_data (map e_val (e :: X))) with (map e_val (e :: X)).
  now apply rebuild_row.
Qed.

Lemma filled_row_rows (r : nat) (l : list entry) :
  Forall (fun e => e_row e = Z.of_nat r) (filled_row r l).
Proof.
  unfold filled_row. pose proof (row_entries_row (Z.of_nat r) l) as Hrow.
  destruct (row_entries (Z.of_nat r) l); [| exact Hrow].
  constructor; [reflexivity | constructor].
Qed.

Lemma filled_row_sorted (r : nat) (l : list entry) :
  sorted_entries l -> sorted_entries (filled_row r l).
Proof.
  intros Hs. unfold filled_row.
  pose proof (sorted_filter (fun e => (e_row e =? Z.of_nat r)%Z) l Hs) as Hf.
  fold (row_entries (Z.of_nat r) l) in Hf.
  destruct (row_entries (Z.of_nat r) l); [| exact Hf].
  repeat constructor.
Qed.

Lemma filled_from_rows (a k : nat) (l : list entry) :
  Forall (fun e => (Z.of_nat a <= e_row e < Z.of_nat (a + k))%Z)
         (flat_map (fun r => filled_row r l) (seq a k)).
Proof.
  revert a. induction k as [| k IH]; intros a; cbn; [constructor |].
  apply Forall_app. split.
  - eapply List.Forall_impl; [| apply filled_row_rows]. cbn. intros e He. lia.
  - eapply List.Forall_impl; [| apply (IH (S a))]. cbn. intros e He. lia.
Qed.

Lemma filled_sorted_from (a k : nat) (l : list entry) :
  sorted_entries l -> sorted_entries (flat_map (fun r => filled_row r l) (seq a k)).
Proof.
  intros Hs. revert a. induction k as [| k IH]; intros a; cbn; [constructor |].
  apply StronglySorted_app_2; [| now apply filled_row_sorted | apply IH].
  intros x y Hx Hy.
  pose proof (filled_row_rows a l) as Hra. rewrite Forall_forall in Hra.
  pose proof (filled_from_rows (S a) k l) as Hrest. rewrite Forall_forall in Hrest.
  specialize (Hra x Hx). specialize (Hrest y Hy). cbn in Hrest.
  apply key_ltb_spec. left. unfold e_row in *. lia.
Qed.

Lemma filled_sorted (n_out : nat) (l : list entry) :
  sorted_entries l -> sorted_entries (filled n_out l).
Proof. apply filled_sorted_from. Qed.

(** The stored entries after add_nans_to_weights, for a sorted operator. *)
Lemma add_nans_entries (w : DataArray COO) :
  sorted_entries (coo_entries (da_data w)) ->
  add_nans_to_weights w
  = mkDataArray (mkCOO (coo_shape (da_data w))
                       (filled (fst (coo_shape (da_data w))) (coo_entries (da_data w))))
                (da_dims w) (da_name w).
Proof.
  intros Hs. destruct w as [[[n_out n_in] l] dims name].
  cbn [da_data da_dims da_name coo_shape coo_entries fst] in Hs |- *.
  unfold add_nans_to_weights. cbn [da_data da_dims da_name]. f_equal.
  set (M := tolil (to_scipy_sparse (mkCOO (n_out, n_in) l))).
  assert (HM : M = mk_lil (n_out, n_in)
                      (map (fun r => map e_col (row_entries (Z.of_nat r) l)) (seq 0 n_out))
                      (map (fun r => map e_val (row_entries (Z.of_nat r) l)) (seq 0 n_out))).
  { subst M. unfold tolil, to_scipy_sparse.
    cbn [sp_shape sp_entries coo_shape coo_entries fst]. rewrite !map_map. f_equal.
    - apply map_ext. intros r. rewrite canonicalize_sorted; [reflexivity |].
      now apply sorted_filter.
    - apply map_ext. intros r. rewrite canonicalize_sorted; [reflexivity |].
      now apply sorted_filter. }
  rewrite fill_all_rows by (rewrite HM; cbn; now rewrite !length_map).
  rewrite HM. unfold from_scipy_sparse, lil_tocoo. cbn [lil_shape lil_rows lil_data sp_shape sp_entries].
  f_equal. rewrite !length_map, length_seq, !map_map.
  rewrite combine_map_map, combine_self_map, flat_map_map. cbn [fst snd].
  rewrite (flat_map_ext _ (fun r => filled_row r l)) by (intros r; apply rebuild_filled_row).
  apply canonicalize_sorted. now apply filled_sorted.
Qed.

Lemma row_entries_app (r : Z) (l1 l2 : list entry) :
  row_entries r (l1 ++ l2) = row_entries r l1 ++ row_entries r l2.
Proof. apply List.filter_app. Qed.

Lemma row_entries_all (r : Z) (X : list entry) :
  Forall (fun e => e_row e = r) X -> row_entries r X = X.
Proof.
  induction 1 as [| e X He _ IH]; [reflexivity |].
  cbn. rewrite He, Z.eqb_refl. f_equal. exact IH.
Qed.

Lemma row_entries_none (r : Z) (X : list entry) :
  Forall (fun e => e_row e <> r) X -> row_entries r X = [].
Proof.
  induction 1 as [| e X He _ IH]; [reflexivity |].
  cbn. apply Z.eqb_neq in He. rewrite He. exact IH.
Qed.

Lemma row_entries_filled_from (a k r : nat) (l : list entry) :
  row_entries (Z.of_nat r) (flat_map (fun i => filled_row i l) (seq a k))
  = if decide (a <= r < a + k) then filled_row r l else [].
Proof.
  revert a. induction k as [| k IH]; intros a; cbn [flat_map seq].
  - destruct (decide _); [lia | reflexivity].
  - rewrite row_entries_app, IH.
    destruct (decide (a = r)) as [-> | Hne].
    + rewrite row_entries_all by apply filled_row_rows.
      destruct (decide (S r <= r < S r + k)); [lia |].
      destruct (decide (r <= r < r + S k)); [| lia].
      apply app_nil_r.
    + rewrite row_entries_none.
      * destruct (decide (S a <= r < S a + k)), (decide (a <= r < a + S k)); try lia; reflexivity.
      * eapply List.Forall_impl; [| apply filled_row_rows]. cbn. intros e He. lia.
Qed.

Lemma row_entries_filled (n_out r : nat) (l : list entry) :
  r < n_out -> row_entries (Z.of_nat r) (filled n_out l) = filled_row r l.
Proof.
  intros Hr. unfold filled. rewrite row_entries_filled_from.
  destruct (decide _); [reflexivity | lia].
Qed.






End MissingRowFacts.



(** * Properties of apply_weights *)

Section DenseFacts.
Context {V : Type} `{Scalar V}.
Local Abbreviation COO := (@COO V).
Local Abbreviation entry := (@entry V).
Local Abbreviation ndarray := (@ndarray V).

Lemma tabulate2_length (m n : nat) (f : nat -> nat -> V) :
  length (tabulate2 m n f) = m * n.
Proof.
  unfold tabulate2.
  assert (G : forall a, length (flat_map (fun i => map (f i) (seq 0 n)) (seq a m)) = m * n).
  { induction m as [| m IH]; intros a; cbn [seq flat_map]; [reflexivity |].
    rewrite length_app, length_map, length_seq, IH. reflexivity. }
  apply G.
Qed.

Lemma nth_tabulate_from (a m n i j : nat) (f : nat -> nat -> V) (d : V) :
  i < m -> j < n ->
  nth (i * n + j) (flat_map (fun i => map (f i) (seq 0 n)) (seq a m)) d = f (a + i) j.
Proof.
  revert a i. induction m as [| m IH]; intros a i Hi Hj; [lia |].
  cbn [seq flat_map]. destruct i as [| i].
  - rewrite app_nth1 by (rewrite length_map, length_seq; lia).
    cbn [Nat.mul Nat.add]. rewrite (nth_indep _ d (f a 0)) by (rewrite length_map, length_seq; lia).
    rewrite map_nth, seq_nth by lia. f_equal; lia.
  - rewrite app_nth2 by (rewrite length_map, length_seq; lia).
    rewrite length_map, length_seq.
    replace (S i * n + j - n) with (i * n + j) by lia.
    rewrite IH by lia. f_equal. lia.
Qed.

Lemma nth_tabulate2 (m n i j : nat) (f : nat -> nat -> V) (d : V) :
  i < m -> j < n -> nth (i * n + j) (tabulate2 m n f) d = f i j.
Proof. intros Hi Hj. unfold tabulate2. now rewrite nth_tabulate_from. Qed.

Lemma shape_size_app (s t : list nat) : shape_size (s ++ t) = shape_size s * shape_size t.
Proof.
  induction s as [| x s IH]; cbn [app].
  - change (shape_size []) with 1. lia.
  - change (shape_size (x :: s ++ t)) with (x * shape_size (s ++ t)).
    change (shape_size (x :: s)) with (x * shape_size s).
    rewrite IH. lia.
Qed.

Lemma skipn_app_exact {A} (s t : list A) : skipn (length (s ++ t) - length t) (s ++ t) = t.
Proof.
  rewrite length_app. replace (length s + length t - length t) with (length s) by lia.
  rewrite skipn_app, Nat.sub_diag, skipn_all. reflexivity.
Qed.

Lemma firstn_app_exact {A} (s t : list A) : firstn (length (s ++ t) - length t) (s ++ t) = s.
Proof.
  rewrite length_app. replace (length s + length t - length t) with (length s) by lia.
  rewrite firstn_app, Nat.sub_diag, firstn_all. cbn. apply app_nil_r.
Qed.

Lemma fold_left_ext_in {A B} (f g : A -> B -> A) (l : list B) (a : A) :
  (forall acc e, In e l -> f acc e = g acc e) -> fold_left f l a = fold_left g l a.
Proof.
  revert a. induction l as [| e l IH]; intros a Hfg; [reflexivity |].
  cbn. rewrite Hfg by now left. apply IH. intros acc e' He'. apply Hfg. now right.
Qed.

Lemma shape_size_pair (a b : nat) : shape_size [a; b] = a * b.
Proof. cbn. lia. Qed.

(** The value apply_weights returns when its three checks pass and the
    source grid is not empty. *)
Lemma apply_weights_result (weights : COO) (indata : ndarray) (extra : list nat)
    (shape_in shape_out : nat * nat) :
  nd_shape indata = extra ++ [fst shape_in; snd shape_in] ->
  length (nd_flat indata) = shape_size (nd_shape indata) ->
  fst shape_in * snd shape_in = snd (coo_shape weights) ->
  fst shape_out * snd shape_out = fst (coo_shape weights) ->
  cols_in_range weights ->
  0 < snd (coo_shape weights) ->
  exists out,
    snd (apply_weights weights indata shape_in shape_out) = Ok out /\
    nd_shape out = extra ++ [fst shape_out; snd shape_out] /\
    length (nd_flat out) = shape_size extra * fst (coo_shape weights) /\
    forall b r, b < shape_size extra -> r < fst (coo_shape weights) ->
      nth (b * fst (coo_shape weights) + r) (nd_flat out) vzero
      = row_dot (coo_entries weights) r
          (fun c => nth (b * snd (coo_shape weights) + c) (nd_flat indata) vzero).
Proof.
  destruct weights as [[n_out n_in] l], indata as [shape flat contiguous],
           shape_in as [si0 si1], shape_out as [so0 so1].
  cbn [nd_shape nd_flat coo_shape coo_entries fst snd].
  intros Hshape Hlen Hin Hout Hcols Hpos.
  unfold cols_in_range in Hcols. cbn [coo_shape coo_entries snd] in Hcols.
  set (batch := shape_size extra).
  assert (Hsize : shape_size shape = batch * n_in).
  { rewrite Hshape, shape_size_app, shape_size_pair, Hin. reflexivity. }
  unfold apply_weights. cbn [nd_shape nd_flat nd_c_contiguous coo_shape fst snd].
  rewrite Hshape.
  change 2 with (length [si0; si1]).
  rewrite skipn_app_exact, firstn_app_exact.
  rewrite bool_decide_true by reflexivity.
  rewrite Hin, Hout, !Nat.eqb_refl. cbn [negb].
  unfold reshape_infer. cbn [nd_shape nd_flat].
  rewrite <- Hshape, Hsize.
  rewrite Nat.Div0.mod_mul, Nat.div_mul by lia.
  destruct (n_in =? 0) eqn:E0; [apply Nat.eqb_eq in E0; lia |].
  cbn [orb negb Nat.eqb mbind result_bind].
  set (A := mk_ndarray [batch; n_in] flat true).
  assert (HA : forall b c, get2 A b c = nth (b * n_in + c) flat vzero) by reflexivity.
  set (B := transpose A).
  assert (HB : forall c b, c < n_in -> b < batch ->
             get2 B c b = nth (b * n_in + c) flat vzero).
  { intros c b Hc Hb. unfold get2 at 1. subst B. unfold transpose.
    cbn [nd_shape nd_flat ncols nrows nth]. subst A. unfold nrows, ncols.
    cbn [nd_shape nth]. rewrite nth_tabulate2 by assumption. apply HA. }
  assert (HBc : ncols B = batch) by reflexivity.
  set (D := coo_dot (mkCOO (n_out, n_in) l) B).
  assert (HD : forall r b, r < n_out -> b < batch ->
             get2 D r b = row_dot l r (fun c => nth (b * n_in + c) flat vzero)).
  { intros r b Hr Hb. unfold get2 at 1. subst D. unfold coo_dot.
    cbn [nd_shape nd_flat ncols nth coo_shape coo_entries fst]. rewrite HBc.
    change (ncols (mk_ndarray [n_out; batch] _ true)) with batch.
    rewrite nth_tabulate2 by assumption. unfold row_dot.
    apply fold_left_ext_in. intros acc e He. f_equal. f_equal.
    apply filter_In in He as [He _].
    rewrite List.Forall_forall in Hcols. specialize (Hcols e He).
    apply HB; lia. }
  unfold reshape. fold A. fold B. fold D.
  assert (HT : nd_shape (transpose D) = [batch; n_out]) by reflexivity.
  rewrite HT, shape_size_app, !shape_size_pair, Hout.
  fold batch. rewrite Nat.eqb_refl. cbn [negb].
  eexists. split; [reflexivity |]. cbn [nd_shape nd_flat].
  split; [reflexivity |]. split.
  - unfold transpose. cbn [nd_flat]. rewrite tabulate2_length. reflexivity.
  - intros b r Hb Hr. unfold transpose. cbn [nd_flat].
    change (ncols D) with batch. change (nrows D) with n_out.
    rewrite nth_tabulate2 by assumption. now apply HD.
Qed.

End DenseFacts.

Section ProductFacts.
Context {V : Type} `{ScalarLaws V}.
Local Abbreviation COO := (@COO V).
Local Abbreviation entry := (@entry V).
Local Abbreviation ndarray := (@ndarray V).

Lemma vadd_zero_r (x : V) : vadd x vzero = x.
Proof. rewrite vadd_comm. apply vadd_zero_l. Qed.

Lemma fold_vadd (l : list V) (a : V) : fold_left vadd l a = vadd a (vsum l).
Proof.
  unfold vsum. revert a. induction l as [| y l IH]; intros a; cbn.
  - now rewrite vadd_zero_r.
  - rewrite (IH (vadd a y)), (IH (vadd vzero y)), vadd_zero_l. now rewrite vadd_assoc.
Qed.

Lemma vsum_cons (y : V) (l : list V) : vsum (y :: l) = vadd y (vsum l).
Proof. unfold vsum at 1. cbn. now rewrite fold_vadd, vadd_zero_l. Qed.

Lemma vadd_swap_inner (a b c d : V) :
  vadd (vadd a b) (vadd c d) = vadd (vadd a c) (vadd b d).
Proof.
  rewrite <- (vadd_assoc a b), (vadd_assoc b c d), (vadd_comm b c).
  now rewrite <- (vadd_assoc c b d), (vadd_assoc a c).
Qed.

Lemma vsum_map_add {A} (f g : A -> V) (s : list A) :
  vsum (map (fun c => vadd (f c) (g c)) s) = vadd (vsum (map f s)) (vsum (map g s)).
Proof.
  induction s as [| a s IH]; cbn [map].
  - unfold vsum. cbn. now rewrite vadd_zero_l.
  - rewrite !vsum_cons, IH. apply vadd_swap_inner.
Qed.

Lemma vsum_zeros {A} (s : list A) : vsum (map (fun _ => vzero) s) = vzero.
Proof.
  induction s as [| a s IH]; [reflexivity |].
  cbn [map]. now rewrite vsum_cons, IH, vadd_zero_l.
Qed.

Lemma vsum_single (a k c0 : nat) (y : nat -> V) :
  a <= c0 < a + k ->
  vsum (map (fun c => if c =? c0 then y c else vzero) (seq a k)) = y c0.
Proof.
  revert a. induction k as [| k IH]; intros a Hc; [lia |].
  cbn [seq map]. rewrite vsum_cons.
  destruct (a =? c0) eqn:E.
  - apply Nat.eqb_eq in E. subst a.
    rewrite (map_ext_in _ (fun _ => vzero)), vsum_zeros; [apply vadd_zero_r |].
    intros c Hin. apply in_seq in Hin.
    destruct (c =? c0) eqn:E'; [apply Nat.eqb_eq in E'; lia | reflexivity].
  - apply Nat.eqb_neq in E. rewrite IH by lia. apply vadd_zero_l.
Qed.

Lemma fold_vadd_map {A} (f : A -> V) (l : list A) (a : V) :
  fold_left (fun acc e => vadd acc (f e)) l a = fold_left vadd (map f l) a.
Proof. revert a. induction l as [| e l IH]; intros a; cbn; [reflexivity | apply IH]. Qed.


Lemma row_dot_cons (e : entry) (l : list entry) (r : nat) (x : nat -> V) :
  row_dot (e :: l) r x
  = vadd (if (e_row e =? Z.of_nat r)%Z then vmul (e_val e) (x (Z.to_nat (e_col e))) else vzero)
         (row_dot l r x).
Proof.
  unfold row_dot, row_entries. cbn [List.filter].
  destruct (e_row e =? Z.of_nat r)%Z.
  - cbn [fold_left].
    rewrite (fold_vadd_map (fun e => vmul (e_val e) (x (Z.to_nat (e_col e)))) _ vzero),
            (fold_vadd_map (fun e => vmul (e_val e) (x (Z.to_nat (e_col e)))) _ (vadd _ _)).
    rewrite (fold_vadd _ (vadd vzero _)), vadd_zero_l. reflexivity.
  - now rewrite vadd_zero_l.
Qed.



End ProductFacts.

Section ShapeCheckFacts.
Context {V : Type} `{Scalar V}.
Local Abbreviation COO := (@COO V).
Local Abbreviation ndarray := (@ndarray V).

Lemma prefix_here (p b : string) : String.prefix p (p +:+ b) = true.
Proof.
  induction p as [| a p IH]; [destruct b; reflexivity |].
  change (String.prefix (String a p) (String a p +:+ b))
    with (if Ascii.ascii_dec a a then String.prefix p (p +:+ b) else false).
  destruct (Ascii.ascii_dec a a); [exact IH | contradiction].
Qed.

Lemma contains_here (p b : string) : contains p (p +:+ b) = true.
Proof.
  destruct (p +:+ b) eqn:E; cbn [contains]; rewrite <- E, prefix_here; reflexivity.
Qed.

Lemma contains_skip (p a s : string) : contains p s = true -> contains p (a +:+ s) = true.
Proof.
  intros Hs. induction a as [| c a IH]; [exact Hs |].
  change (contains p (String c a +:+ s))
    with (String.prefix p (String c (a +:+ s)) || contains p (a +:+ s)).
  rewrite IH. apply orb_true_r.
Qed.

Lemma msg_horizontal_mentions (shape_horiz : list nat) (shape_in : nat * nat) :
  contains (tuple_str shape_horiz) (msg_horizontal shape_horiz shape_in) = true /\
  contains (tuple_str [fst shape_in; snd shape_in]) (msg_horizontal shape_horiz shape_in) = true.
Proof.
  unfold msg_horizontal. split.
  - apply contains_skip, contains_here.
  - do 3 apply contains_skip. apply contains_here.
Qed.

(** C5 (amended). apply_weights raises AssertionError exactly when one of its
    three conditions fails, and then returns nothing.  The message of the
    first check shows the horizontal shape of the data and shape_in; the
    messages of the two other checks are fixed texts. *)
Theorem apply_weights_rejects_mismatch (weights : COO) (indata : ndarray)
    (shape_in shape_out : nat * nat) :
  let shape_horiz := skipn (length (nd_shape indata) - 2) (nd_shape indata) in
  let declared := [fst shape_in; snd shape_in] in
  (shapes_agree weights indata shape_in shape_out ->
   forall msg, snd (apply_weights weights indata shape_in shape_out) <> Raise (AssertionError msg)) /\
  (~ shapes_agree weights indata shape_in shape_out ->
   exists msg,
     snd (apply_weights weights indata shape_in shape_out) = Raise (AssertionError msg) /\
     (shape_horiz <> declared ->
        msg = msg_horizontal shape_horiz shape_in /\
        contains (tuple_str shape_horiz) msg = true /\
        contains (tuple_str declared) msg = true) /\
     (shape_horiz = declared -> fst shape_in * snd shape_in <> snd (coo_shape weights) ->
        msg = msg_n_in) /\
     (shape_horiz = declared -> fst shape_in * snd shape_in = snd (coo_shape weights) ->
        msg = msg_n_out)).
Proof.
  intros shape_horiz declared. unfold shapes_agree. fold shape_horiz declared.
  unfold apply_weights. cbn [snd]. fold shape_horiz.
  change [fst shape_in; snd shape_in] with declared.
  destruct (decide (shape_horiz = declared)) as [E1 | E1].
  - rewrite (bool_decide_true _ E1). cbn [negb].
    destruct (fst shape_in * snd shape_in =? snd (coo_shape weights)) eqn:E2; cbn [negb].
    + apply Nat.eqb_eq in E2.
      destruct (fst shape_out * snd shape_out =? fst (coo_shape weights)) eqn:E3; cbn [negb].
      * apply Nat.eqb_eq in E3. split.
        -- intros _ msg. unfold reshape_infer, reshape.
           destruct (_ || _); cbn [mbind result_bind]; [discriminate |].
           destruct (negb _); discriminate.
        -- intros Hn. exfalso. apply Hn. auto.
      * apply Nat.eqb_neq in E3. split.
        -- intros (_ & _ & E). contradiction.
        -- intros _. exists msg_n_out. repeat split; auto; contradiction.
    + apply Nat.eqb_neq in E2. split.
      * intros (_ & E & _). contradiction.
      * intros _. exists msg_n_in. repeat split; auto; contradiction.
  - rewrite (bool_decide_false _ E1). cbn [negb]. split.
    + intros (E & _). contradiction.
    + intros _. exists (msg_horizontal shape_horiz shape_in).
      split; [reflexivity |]. split; [| split]; try contradiction.
      intros _. split; [reflexivity |]. apply msg_horizontal_mentions.
Qed.

End ShapeCheckFacts.

(** The second check fails: the message shows neither shape_in (2, 3), nor
    its product 6, nor the operator's n_in = 7 or shape (1, 7). *)
Lemma apply_weights_message_counterexample :
  let weights := mkCOO (1, 7) ([] : list (@entry Z)) in
  let indata := mk_ndarray [2; 3] [0; 0; 0; 0; 0; 0]%Z true in
  ~ shapes_agree weights indata (2, 3) (1, 1) /\
  exists msg,
    snd (apply_weights weights indata (2, 3) (1, 1)) = Raise (AssertionError msg) /\
    contains (tuple_str [2; 3]) msg = false /\
    contains (str_of_nat 6) msg = false /\
    contains (str_of_nat 7) msg = false /\
    contains (tuple_str [1; 7]) msg = false.
Proof.
  split.
  - intros (_ & E & _). discriminate E.
  - exists msg_n_in. repeat split; reflexivity.
Qed.

Lemma apply_weights_rejects_mismatch_witness :
  let weights := mkCOO (1, 7) ([] : list (@entry Z)) in
  let indata := mk_ndarray [2; 3] [0; 0; 0; 0; 0; 0]%Z true in
  exists msg, snd (apply_weights weights indata (3, 2) (1, 1)) = Raise (AssertionError msg) /\
              contains "(2, 3)" msg = true /\ contains "(3, 2)" msg = true.
Proof.
  intros weights indata.
  destruct (proj2 (apply_weights_rejects_mismatch weights indata (3, 2) (1, 1)))
    as (msg & Hmsg & Hfirst & _).
  - intros (E & _). discriminate E.
  - exists msg. split; [exact Hmsg |].
    destruct Hfirst as (_ & H1 & H2); [discriminate |]. split; [exact H1 | exact H2].
Defined.

(** * Properties of _combine_weight_multipoly *)

Section CombineFacts.
Context {V : Type} `{ScalarLaws V}.
Local Abbreviation COO := (@COO V).
Local Abbreviation entry := (@entry V).
Local Abbreviation ndarray := (@ndarray V).

Lemma mask_positions_members (indexes : list Z) (g : Z) :
  mask_positions (map (fun x => (x =? g)%Z) indexes) = group_members indexes g.
Proof.
  unfold mask_positions, group_members. rewrite length_map.
  apply filter_ext_in. intros j Hj. apply in_seq in Hj.
  rewrite (nth_indep _ false ((0 =? g)%Z)) by (rewrite length_map; lia).
  apply (map_nth (fun x => (x =? g)%Z)).
Qed.

Lemma group_members_bound (indexes : list Z) (g : Z) :
  Forall (fun c => c < length indexes) (group_members indexes g).
Proof.
  apply List.Forall_forall. intros c Hc. apply filter_In in Hc as [Hc _].
  apply in_seq in Hc. lia.
Qed.

Lemma get2_todense (c : COO) (i j : nat) :
  i < fst (coo_shape c) -> j < snd (coo_shape c) ->
  get2 (todense c) i j = dense_at (coo_entries c) i j.
Proof.
  intros Hi Hj. unfold get2, todense, ncols. cbn [nd_shape nd_flat nth].
  now apply nth_tabulate2.
Qed.

Lemma map_nth_seq {A B} (f : A -> B) (l : list A) (d : A) :
  map (fun j => f (nth j l d)) (seq 0 (length l)) = map f l.
Proof.
  induction l as [| a l IH]; [reflexivity |].
  cbn [length seq map nth]. f_equal.
  rewrite <- seq_shift, map_map. exact IH.
Qed.

Lemma one_summed_column (weights : DataArray COO) (indexes : list Z) (g : Z) :
  da_dims weights = ["out_dim"; "in_dim"] ->
  length indexes = snd (coo_shape (da_data weights)) ->
  (sel ← isel (mkDataArray (todense (da_data weights)) (da_dims weights) (da_name weights))
            "in_dim" (map (fun x => (x =? g)%Z) indexes);
   sum_dim sel "in_dim")
  = Ok (summed_column weights indexes g).
Proof.
  intros Hdims Hlen. destruct weights as [[[n_out n_in] l] dims name].
  cbn [da_data da_dims da_name coo_shape fst snd] in *. subst dims.
  unfold isel. cbn [da_dims da_data da_name axis_of String.eqb Ascii.eqb Bool.eqb fmap option_fmap option_map].
  rewrite mask_positions_members, length_map, Hlen.
  change (nth 1 (nd_shape (todense (mkCOO (n_out, n_in) l))) 0) with n_in.
  rewrite Nat.eqb_refl. cbn [negb mbind result_bind].
  unfold sum_dim. cbn [da_dims da_data da_name axis_of String.eqb Ascii.eqb Bool.eqb fmap option_fmap option_map].
  unfold summed_column. cbn [da_data da_name coo_shape fst].
  set (ps := group_members indexes g).
  set (A := todense (mkCOO (n_out, n_in) l)).
  change (nrows A) with n_out.
  set (S_ := mk_ndarray [n_out; length ps]
               (tabulate2 n_out (length ps) (fun i j => get2 A i (nth j ps 0))) true).
  change (nrows S_) with n_out. change (ncols S_) with (length ps).
  f_equal. f_equal. f_equal.
  apply map_ext_in. intros r Hr. apply in_seq in Hr.
  unfold column_sum. cbn [coo_entries]. f_equal.
  rewrite <- (map_nth_seq (dense_at l r) ps 0).
  apply map_ext_in. intros j Hj. apply in_seq in Hj.
  unfold get2 at 1. change (ncols S_) with (length ps). cbn [nd_flat S_].
  rewrite nth_tabulate2 by lia.
  pose proof (group_members_bound indexes g) as Hb. fold ps in Hb.
  rewrite List.Forall_forall in Hb.
  assert (Hn : nth j ps 0 < n_in).
  { rewrite <- Hlen. apply Hb. apply nth_In. lia. }
  apply (get2_todense (mkCOO (n_out, n_in) l)); cbn; lia.
Qed.

Lemma summed_columns_ok (weights : DataArray COO) (indexes todo : list Z) :
  da_dims weights = ["out_dim"; "in_dim"] ->
  length indexes = snd (coo_shape (da_data weights)) ->
  summed_columns (mkDataArray (todense (da_data weights)) (da_dims weights) (da_name weights))
                 indexes todo
  = Ok (map (summed_column weights indexes) todo).
Proof.
  intros Hdims Hlen. induction todo as [| i todo IH]; [reflexivity |].
  cbn [summed_columns map].
  pose proof (one_summed_column weights indexes i Hdims Hlen) as Hone.
  destruct (isel _ "in_dim" _) as [sel |]; cbn [mbind result_bind] in Hone |- *;
    [| discriminate].
  rewrite Hone. cbn [mbind result_bind]. rewrite IH. reflexivity.
Qed.

Lemma combine_result (weights : DataArray COO) (indexes : list Z) (m : Z) :
  da_dims weights = ["out_dim"; "in_dim"] ->
  length indexes = snd (coo_shape (da_data weights)) ->
  np_max indexes = Ok m -> (0 <= m)%Z ->
  exists out,
    _combine_weight_multipoly weights indexes = Ok out /\
    da_dims out = ["out_dim"; "in_dim"] /\
    nd_shape (da_data out) = [fst (coo_shape (da_data weights)); Z.to_nat (m + 1)] /\
    forall r g, r < fst (coo_shape (da_data weights)) -> g < Z.to_nat (m + 1) ->
      get2 (da_data out) r g
      = column_sum (da_data weights) r (group_members indexes (Z.of_nat g)).
Proof.
  intros Hdims Hlen Hmax Hm. unfold _combine_weight_multipoly.
  rewrite Hmax. cbn [mbind result_bind].
  rewrite (summed_columns_ok weights indexes _ Hdims Hlen). cbn [mbind result_bind].
  unfold py_range. rewrite map_map.
  set (n_out := fst (coo_shape (da_data weights))).
  set (G := Z.to_nat (m + 1)).
  assert (HG : 0 < G) by (subst G; lia).
  set (cols := map (fun g => summed_column weights indexes (Z.of_nat g)) (seq 0 G)).
  assert (Hflat : flat_map (fun o : DataArray ndarray => nd_flat (da_data o)) cols
                  = tabulate2 G n_out
                      (fun g r => column_sum (da_data weights) r
                                    (group_members indexes (Z.of_nat g)))).
  { subst cols. rewrite flat_map_map. reflexivity. }
  assert (Hlenc : length cols = G) by (subst cols; now rewrite length_map, length_seq).
  destruct cols as [| first rest] eqn:Ecols; [cbn in Hlenc; lia |].
  assert (Hfirst : first = summed_column weights indexes (Z.of_nat 0)).
  { subst cols. destruct G; [lia |]. cbn in Ecols. now injection Ecols as <- _. }
  unfold xr_concat. cbn [mbind result_bind].
  rewrite Hflat, Hlenc, Hfirst.
  unfold xr_transpose. cbn [da_dims summed_column da_data da_name].
  change (nrows (mk_ndarray [n_out] _ true)) with n_out.
  rewrite bool_decide_false by discriminate.
  rewrite bool_decide_true by reflexivity.
  eexists. split; [reflexivity |]. cbn [da_dims da_data].
  split; [reflexivity |]. split; [reflexivity |].
  intros r g Hr Hg. unfold get2 at 1, transpose.
  cbn [nd_flat nd_shape ncols nrows nth].
  change (ncols (mk_ndarray [n_out; G] _ false)) with G.
  rewrite nth_tabulate2 by assumption.
  unfold get2, ncols. cbn [nd_shape nd_flat nth].
  now rewrite nth_tabulate2.
Qed.

(** C4 (amended). For an operator with dimensions (out_dim, in_dim) and an
    index array of the operator's n_in entries whose maximum m exists and is
    not negative, the result has the columns 0 .. m; column g is, row by
    row, the sum of the operator's columns whose index is g, hence zero
    when no column has index g.  In particular indexes [0, 0, 1] on three
    columns give column 0 = column 0 + column 1 and column 1 = column 2. *)
Theorem combine_sums_columns_by_index :
  (forall (weights : DataArray COO) (indexes : list Z) (m : Z),
      da_dims weights = ["out_dim"; "in_dim"] ->
      length indexes = snd (coo_shape (da_data weights)) ->
      np_max indexes = Ok m -> (0 <= m)%Z ->
      exists out,
        _combine_weight_multipoly weights indexes = Ok out /\
        da_dims out = ["out_dim"; "in_dim"] /\
        nd_shape (da_data out) = [fst (coo_shape (da_data weights)); Z.to_nat (m + 1)] /\
        forall r g, r < fst (coo_shape (da_data weights)) -> g < Z.to_nat (m + 1) ->
          get2 (da_data out) r g
          = column_sum (da_data weights) r (group_members indexes (Z.of_nat g)) /\
          (group_members indexes (Z.of_nat g) = [] -> get2 (da_data out) r g = vzero)) /\
  (forall (weights : DataArray COO),
      da_dims weights = ["out_dim"; "in_dim"] ->
      snd (coo_shape (da_data weights)) = 3 ->
      exists out,
        _combine_weight_multipoly weights [0; 0; 1]%Z = Ok out /\
        nd_shape (da_data out) = [fst (coo_shape (da_data weights)); 2] /\
        forall r, r < fst (coo_shape (da_data weights)) ->
          get2 (da_data out) r 0
          = vadd (dense_at (coo_entries (da_data weights)) r 0)
                 (dense_at (coo_entries (da_data weights)) r 1) /\
          get2 (da_data out) r 1 = dense_at (coo_entries (da_data weights)) r 2).
Proof.
  split.
  - intros weights indexes m Hdims Hlen Hmax Hm.
    destruct (combine_result weights indexes m Hdims Hlen Hmax Hm)
      as (out & Hok & Hd & Hs & Hval).
    exists out. repeat split; try assumption.
    + now apply Hval.
    + intros He. rewrite Hval by assumption. now rewrite He.
  - intros weights Hdims Hn.
    destruct (combine_result weights [0; 0; 1]%Z 1%Z Hdims) as (out & Hok & _ & Hs & Hval);
      [now rewrite Hn | reflexivity | lia |].
    exists out. split; [exact Hok |]. split; [exact Hs |].
    intros r Hr. split.
    + rewrite (Hval r 0 Hr) by (cbn; lia). unfold column_sum.
      change (group_members [0; 0; 1]%Z (Z.of_nat 0)) with [0; 1].
      cbn [map fold_left]. now rewrite vadd_zero_l.
    + rewrite (Hval r 1 Hr) by (cbn; lia). unfold column_sum.
      change (group_members [0; 0; 1]%Z (Z.of_nat 1)) with [2].
      cbn [map fold_left]. now rewrite vadd_zero_l.
Qed.

End CombineFacts.

Lemma combine_sums_columns_by_index_witness :
  exists out,
    _combine_weight_multipoly example_operator [2; 0; 2]%Z = Ok out /\
    nd_shape (da_data out) = [2; 3] /\
    get2 (da_data out) 1 1 = 0%Z /\ get2 (da_data out) 1 2 = 7%Z.
Proof.
  destruct (proj1 combine_sums_columns_by_index example_operator [2; 0; 2]%Z 2%Z
              eq_refl eq_refl eq_refl ltac:(lia)) as (out & Hok & _ & Hs & Hval).
  exists out. split; [exact Hok |]. split; [exact Hs |]. split.
  - exact (proj2 (Hval 1 1 ltac:(cbn; lia) ltac:(cbn; lia)) eq_refl).
  - exact (proj1 (Hval 1 2 ltac:(cbn; lia) ltac:(cbn; lia))).
Defined.

(** An index array with no entry, and one with only negative entries: no
    operator is returned. *)
Lemma combine_no_group_counterexample :
  let empty_operator := weights_array (mkCOO (2, 0) ([] : list (@entry Z))) in
  length ([] : list Z) = snd (coo_shape (da_data empty_operator)) /\
  _combine_weight_multipoly empty_operator []
  = Raise (ValueError "zero-size array to reduction operation maximum which has no identity") /\
  length [-1; -1; -2]%Z = snd (coo_shape (da_data example_operator)) /\
  _combine_weight_multipoly example_operator [-1; -1; -2]%Z
  = Raise (ValueError "must supply at least one object to concatenate").
Proof. repeat split. Qed.

(** * Concrete instances *)




Lemma ingest_table_declared_shape_witness :
  coo_shape (da_data (operator_of_columns [2; 1]%Z [3; 1]%Z [7; 5]%Z 10 20)) = (20, 10).
Proof.
  refine (ingest_table_declared_shape ∅ (SrcDataset small_table) 10 20
            (operator_of_columns [2; 1]%Z [3; 1]%Z [7; 5]%Z 10 20) _).
  vm_compute; reflexivity.
Defined.


(** * Further properties of weight ingestion *)

Section CanonicalFormFacts.
Context {V : Type} `{ScalarLaws V}.
Local Abbreviation Dataset := (@Dataset V).
Local Abbreviation WeightsDict := (@WeightsDict V).
Local Abbreviation COO := (@COO V).
Local Abbreviation coo_matrix := (@coo_matrix V).
Local Abbreviation entry := (@entry V).
Local Abbreviation filesystem := (gmap string Dataset).
Local Abbreviation table_source := (@table_source V).
Local Abbreviation source := (@source V).

Lemma key_order_total (k k' : Z * Z) :
  key_ltb k k' = false -> key_eqb k k' = false -> key_ltb k' k = true.
Proof.
  intros Hlt Heq. apply key_ltb_spec.
  assert (Hn : ~ (fst k < fst k' \/ fst k = fst k' /\ snd k < snd k')%Z).
  { intros Hc. apply key_ltb_spec in Hc. congruence. }
  assert (Hne : k <> k').
  { intros Hc. apply key_eqb_spec in Hc. congruence. }
  destruct k as [a b], k' as [a' b']. cbn in *.
  assert (a <> a' \/ b <> b') by (destruct (Z.eq_dec a a'); [right; congruence | left; assumption]).
  lia.
Qed.

Lemma coo_insert_keys (P : Z * Z -> Prop) (k : Z * Z) (v : V) (l : list entry) :
  P k -> Forall (fun e => P (fst e)) l -> Forall (fun e => P (fst e)) (coo_insert k v l).
Proof.
  intros Hk. induction 1 as [| [k' v'] l Hk' Hl IH]; cbn [coo_insert].
  - repeat constructor. exact Hk.
  - destruct (key_ltb k k'); [repeat constructor; assumption |].
    destruct (key_eqb k k'); constructor; assumption.
Qed.

Lemma coo_insert_sorted (k : Z * Z) (v : V) (l : list entry) :
  sorted_entries l -> sorted_entries (coo_insert k v l).
Proof.
  unfold sorted_entries. induction 1 as [| [k' v'] l Hs IH Hall]; cbn [coo_insert].
  - repeat constructor.
  - destruct (key_ltb k k') eqn:E1.
    + constructor; [constructor; assumption |].
      constructor; [exact E1 |].
      eapply List.Forall_impl; [| exact Hall]. unfold key_lt. cbn [fst].
      intros e He. apply key_ltb_spec in E1, He. apply key_ltb_spec. lia.
    + destruct (key_eqb k k') eqn:E2.
      * constructor; [exact Hs | exact Hall].
      * constructor; [exact IH |].
        apply (coo_insert_keys (fun q => key_ltb k' q = true)); [| exact Hall].
        now apply key_order_total.
Qed.

Lemma canonicalize_is_sorted (l : list entry) : sorted_entries (canonicalize l).
Proof.
  unfold canonicalize.
  assert (G : forall acc, sorted_entries acc ->
                sorted_entries (fold_left (fun a e => coo_insert (fst e) (snd e) a) l acc)).
  { induction l as [| e l IH]; intros acc Hacc; [exact Hacc |].
    cbn [fold_left]. apply IH. now apply coo_insert_sorted. }
  apply G. constructor.
Qed.




(** X1. Whatever the order and the duplicates of the triples of a tabular
    source or of a scipy coo_matrix, the operator read_weights returns stores
    its entries in strictly increasing row-major order, so no coordinate pair
    is stored twice. *)
Theorem ingest_stores_sorted_entries (fs : filesystem) (n_in n_out : nat) :
  (forall (t : table_source) (w : DataArray COO),
      read_weights fs (SrcTable t) n_in n_out = Ok w ->
      sorted_entries (coo_entries (da_data w))) /\
  (forall (m : coo_matrix) (w : DataArray COO),
      read_weights fs (SrcCooMatrix m) n_in n_out = Ok w ->
      sorted_entries (coo_entries (da_data w))).
Proof.
  split.
  - intros t w. unfold read_weights.
    destruct (_parse_coords_and_values fs t n_in n_out) as [c0 |] eqn:Hp;
      cbn [mbind result_bind]; [| discriminate].
    intros [= <-]. cbn [da_data weights_array].
    rewrite parse_cases in Hp.
    assert (G : forall (c r : option (list Z)) (s : option (list V)) msg,
               table_outcome c r s msg n_in n_out = Ok c0 ->
               sorted_entries (coo_entries c0)).
    { intros c r s msg. unfold table_outcome, np_stack, COO_init.
      destruct c, r, s; try discriminate.
      destruct (_ =? _); cbn [mbind result_bind]; [| discriminate].
      destruct (negb _); [discriminate |].
      intros [= <-]. apply canonicalize_is_sorted. }
    destruct t as [p | ds | d]; [destruct (fs !! p); [| discriminate] | |]; eapply G; exact Hp.
  - intros m w [= <-]. apply canonicalize_is_sorted.
Qed.


End CanonicalFormFacts.

Section IngestionEdgeFacts.
Context {V : Type} `{Scalar V}.
Local Abbreviation Dataset := (@Dataset V).
Local Abbreviation WeightsDict := (@WeightsDict V).
Local Abbreviation COO := (@COO V).
Local Abbreviation coo_matrix := (@coo_matrix V).
Local Abbreviation filesystem := (gmap string Dataset).
Local Abbreviation table_source := (@table_source V).
Local Abbreviation source := (@source V).

Lemma ragged_outcome (col row : list Z) (s : list V) (msg : string) (n_in n_out : nat) :
  length col <> length row \/ length s <> length row ->
  exists m, table_outcome (Some col) (Some row) (Some s) msg n_in n_out = Raise (ValueError m) /\
            m <> msg_dataset /\ m <> msg_dict.
Proof.
  intros Hl. unfold table_outcome, np_stack. rewrite !sub1_length.
  destruct (length row =? length col) eqn:E; cbn [mbind result_bind].
  - apply Nat.eqb_eq in E. unfold COO_init.
    rewrite length_combine, !sub1_length, <- E, Nat.min_id.
    destruct (length s =? length row) eqn:E'; [apply Nat.eqb_eq in E'; lia |].
    cbn [negb]. eexists. split; [reflexivity |]. split; discriminate.
  - eexists. split; [reflexivity |]. split; discriminate.
Qed.

(** X3. When the three fields are present but the index columns differ in
    length, or the value column differs from them, ingestion of a dataset,
    of an existing path or of a dictionary raises a ValueError that is not
    the schema error; no operator is returned. *)
Theorem ingest_rejects_ragged_columns (fs : filesystem) (t : table_source)
    (col row : list Z) (s : list V) (n_in n_out : nat) :
  (exists ds, denotes fs t ds /\
              ds_col ds = Some col /\ ds_row ds = Some row /\ ds_S ds = Some s) \/
  (exists d, t = SrcDict d /\
             d_col_src d = Some col /\ d_row_dst d = Some row /\ d_weights d = Some s) ->
  length col <> length row \/ length s <> length row ->
  exists m, read_weights fs (SrcTable t) n_in n_out = Raise (ValueError m) /\
            ~ raises_schema_error (read_weights fs (SrcTable t) n_in n_out).
Proof.
  intros Hsrc Hl.
  assert (G : exists m, _parse_coords_and_values fs t n_in n_out = Raise (ValueError m) /\
                        m <> msg_dataset /\ m <> msg_dict).
  { rewrite parse_cases.
    destruct Hsrc as [(ds & [-> | (p & -> & Hp)] & Hc & Hr & Hs) | (d & -> & Hc & Hr & Hs)];
      [| rewrite Hp |]; rewrite Hc, Hr, Hs; now apply ragged_outcome. }
  destruct G as (m & Hm & Hn1 & Hn2). exists m.
  unfold read_weights. rewrite Hm. cbn [mbind result_bind]. split; [reflexivity |].
  intros [E | E]; injection E; congruence.
Qed.

(** X4. Every source other than a DataArray yields, when ingestion succeeds,
    an operator with dimensions (out_dim, in_dim) and name weights. *)
Theorem ingest_labels_operator (fs : filesystem) (src : source) (n_in n_out : nat)
    (w : DataArray COO) :
  (forall w0, src <> SrcDataArray w0) ->
  read_weights fs src n_in n_out = Ok w ->
  da_dims w = ["out_dim"; "in_dim"] /\ da_name w = Some "weights".
Proof.
  intros Hsrc. destruct src as [t | m | w0 | c]; cbn [read_weights].
  - destruct (_parse_coords_and_values fs t n_in n_out); cbn [mbind result_bind];
      [| discriminate].
    intros [= <-]. split; reflexivity.
  - intros [= <-]. split; reflexivity.
  - now contradiction (Hsrc w0).
  - intros [= <-]. split; reflexivity.
Qed.

End IngestionEdgeFacts.

(** * Further properties of apply_weights *)

Section ApplyEdgeFacts.
Context {V : Type} `{Scalar V}.
Local Abbreviation COO := (@COO V).
Local Abbreviation entry := (@entry V).
Local Abbreviation ndarray := (@ndarray V).

(** X5. Data with fewer than two dimensions is always rejected by the first
    assertion, whose message shows the whole shape of the data. *)
Theorem apply_weights_needs_two_dimensions (weights : COO) (indata : ndarray)
    (shape_in shape_out : nat * nat) :
  length (nd_shape indata) < 2 ->
  snd (apply_weights weights indata shape_in shape_out)
  = Raise (AssertionError (msg_horizontal (nd_shape indata) shape_in)).
Proof.
  intros Hlen. unfold apply_weights. cbn [snd].
  replace (length (nd_shape indata) - 2) with 0 by lia. rewrite skipn_O.
  rewrite bool_decide_false; [reflexivity |].
  intros E. rewrite E in Hlen. cbn in Hlen. lia.
Qed.

(** X6. A destination row without stored entries is computed as zero for
    every batch index: under the three conditions and a non-empty source
    grid, the output at (b, r) is vzero when row r of the operator is empty. *)
Theorem apply_weights_empty_row_gives_zero (weights : COO) (indata : ndarray)
    (extra : list nat) (shape_in shape_out : nat * nat) (r : nat) :
  nd_shape indata = extra ++ [fst shape_in; snd shape_in] ->
  length (nd_flat indata) = shape_size (nd_shape indata) ->
  fst shape_in * snd shape_in = snd (coo_shape weights) ->
  fst shape_out * snd shape_out = fst (coo_shape weights) ->
  cols_in_range weights ->
  0 < snd (coo_shape weights) ->
  r < fst (coo_shape weights) ->
  row_entries (Z.of_nat r) (coo_entries weights) = [] ->
  exists out,
    snd (apply_weights weights indata shape_in shape_out) = Ok out /\
    forall b, b < shape_size extra ->
      nth (b * fst (coo_shape weights) + r) (nd_flat out) vzero = vzero.
Proof.
  intros Hshape Hlen Hin Hout Hcols Hpos Hr Hempty.
  destruct (apply_weights_result weights indata extra shape_in shape_out
              Hshape Hlen Hin Hout Hcols Hpos) as (out & Hok & _ & _ & Hval).
  exists out. split; [exact Hok |].
  intros b Hb. rewrite (Hval b r Hb Hr). unfold row_dot. now rewrite Hempty.
Qed.

End ApplyEdgeFacts.

Section LinearityFacts.
Context {V : Type} `{ScalarLaws V}.
Local Abbreviation COO := (@COO V).
Local Abbreviation entry := (@entry V).
Local Abbreviation ndarray := (@ndarray V).

Lemma nth_zip_vadd (la lb : list V) (i : nat) :
  i < length la -> i < length lb ->
  nth i (zip_with vadd la lb) vzero = vadd (nth i la vzero) (nth i lb vzero).
Proof.
  revert lb i. induction la as [| x la IH]; intros lb i Ha Hb; [cbn in Ha; lia |].
  destruct lb as [| y lb]; [cbn in Hb; lia |].
  destruct i as [| i]; [reflexivity |].
  cbn in Ha, Hb |- *. apply IH; lia.
Qed.

Lemma length_zip_vadd (la lb : list V) :
  length la = length lb -> length (zip_with vadd la lb) = length la.
Proof.
  revert lb. induction la as [| x la IH]; intros [| y lb] Hl; cbn in *; try lia.
  rewrite IH; lia.
Qed.

Lemma row_dot_ext (l : list entry) (r : nat) (x y : nat -> V) :
  (forall e, In e l -> x (Z.to_nat (e_col e)) = y (Z.to_nat (e_col e))) ->
  row_dot l r x = row_dot l r y.
Proof.
  intros Hxy. unfold row_dot. apply fold_left_ext_in.
  intros acc e He. apply filter_In in He as [He _]. now rewrite (Hxy e He).
Qed.

Lemma row_dot_add (l : list entry) (r : nat) (x y : nat -> V) :
  (forall u v w : V, vmul u (vadd v w) = vadd (vmul u v) (vmul u w)) ->
  row_dot l r (fun c => vadd (x c) (y c)) = vadd (row_dot l r x) (row_dot l r y).
Proof.
  intros Hdistr. induction l as [| e l IH].
  - unfold row_dot. cbn. now rewrite vadd_zero_l.
  - rewrite !row_dot_cons, IH.
    destruct (e_row e =? Z.of_nat r)%Z.
    + rewrite Hdistr. apply vadd_swap_inner.
    + now rewrite !vadd_zero_l.
Qed.

(** X7. apply_weights is additive in the data: for two arrays of the same
    shape that pass the three checks on a non-empty source grid, the output
    for their element-wise sum is the element-wise sum of their outputs
    (scalars forming a commutative semiring). *)
Theorem apply_weights_additive (weights : COO) (a b : ndarray) (extra : list nat)
    (shape_in shape_out : nat * nat) :
  (forall u v w : V, vmul u (vadd v w) = vadd (vmul u v) (vmul u w)) ->
  nd_shape a = extra ++ [fst shape_in; snd shape_in] ->
  nd_shape b = nd_shape a ->
  length (nd_flat a) = shape_size (nd_shape a) ->
  length (nd_flat b) = shape_size (nd_shape b) ->
  fst shape_in * snd shape_in = snd (coo_shape weights) ->
  fst shape_out * snd shape_out = fst (coo_shape weights) ->
  cols_in_range weights ->
  0 < snd (coo_shape weights) ->
  exists out_a out_b out_ab,
    snd (apply_weights weights a shape_in shape_out) = Ok out_a /\
    snd (apply_weights weights b shape_in shape_out) = Ok out_b /\
    snd (apply_weights weights (nd_add a b) shape_in shape_out) = Ok out_ab /\
    nd_shape out_ab = nd_shape out_a /\
    forall i r, i < shape_size extra -> r < fst (coo_shape weights) ->
      nth (i * fst (coo_shape weights) + r) (nd_flat out_ab) vzero
      = vadd (nth (i * fst (coo_shape weights) + r) (nd_flat out_a) vzero)
             (nth (i * fst (coo_shape weights) + r) (nd_flat out_b) vzero).
Proof.
  intros Hdistr Hsa Hsb Hla Hlb Hin Hout Hcols Hpos.
  assert (Hsb' : nd_shape b = extra ++ [fst shape_in; snd shape_in]) by congruence.
  assert (Hlab : length (nd_flat (nd_add a b)) = shape_size (nd_shape (nd_add a b))).
  { cbn [nd_add nd_flat nd_shape]. rewrite length_zip_vadd; congruence. }
  destruct (apply_weights_result weights a extra shape_in shape_out
              Hsa Hla Hin Hout Hcols Hpos) as (oa & Hoka & Hssa & _ & Hva).
  destruct (apply_weights_result weights b extra shape_in shape_out
              Hsb' Hlb Hin Hout Hcols Hpos) as (ob & Hokb & _ & _ & Hvb).
  destruct (apply_weights_result weights (nd_add a b) extra shape_in shape_out
              Hsa Hlab Hin Hout Hcols Hpos) as (oab & Hokab & Hssab & _ & Hvab).
  exists oa, ob, oab. repeat split; try assumption; [congruence |].
  intros i r Hi Hr. rewrite (Hva i r Hi Hr), (Hvb i r Hi Hr), (Hvab i r Hi Hr).
  rewrite <- (row_dot_add _ _ _ _ Hdistr). apply row_dot_ext.
  intros e He. cbn [nd_add nd_flat].
  unfold cols_in_range in Hcols. rewrite List.Forall_forall in Hcols.
  specialize (Hcols e He).
  assert (Hsize : shape_size (nd_shape a) = shape_size extra * snd (coo_shape weights)).
  { rewrite Hsa, shape_size_app, shape_size_pair, Hin. reflexivity. }
  apply nth_zip_vadd; [rewrite Hla, Hsize | rewrite Hlb, Hsb, Hsize]; nia.
Qed.

End LinearityFacts.

(** * Further properties of add_nans_to_weights *)

Section FillFacts.
Context {V : Type} `{Scalar V} `{HasNaN V}.
Local Abbreviation COO := (@COO V).
Local Abbreviation entry := (@entry V).
Local Abbreviation ndarray := (@ndarray V).

Lemma key_lt_row (e e' : entry) : key_lt e e' -> (e_row e <= e_row e')%Z.
Proof. unfold key_lt, e_row. intros Hlt. apply key_ltb_spec in Hlt. lia. Qed.

Lemma split_first_row (a : Z) (l : list entry) :
  sorted_entries l -> Forall (fun e => (a <= e_row e)%Z) l ->
  l = row_entries a l ++ List.filter (fun e => negb (e_row e =? a)%Z) l.
Proof.
  unfold sorted_entries. induction 1 as [| e l Hs IH Hall]; intros Hge; [reflexivity |].
  apply List.Forall_cons_iff in Hge as [He Hge].
  unfold row_entries in *. cbn [List.filter].
  destruct (e_row e =? a)%Z eqn:E; cbn [negb app].
  - f_equal. now apply IH.
  - apply Z.eqb_neq in E.
    assert (Hnone : List.filter (fun e0 : entry => (e_row e0 =? a)%Z) l = []).
    { apply (row_entries_none a). eapply List.Forall_impl; [| exact Hall].
      cbn. intros x Hx. apply key_lt_row in Hx. lia. }
    rewrite Hnone. cbn [app]. f_equal.
    rewrite IH at 1 by exact Hge. now rewrite Hnone.
Qed.

Lemma row_entries_of_rest (a r : Z) (l : list entry) :
  r <> a ->
  row_entries r (List.filter (fun e => negb (e_row e =? a)%Z) l) = row_entries r l.
Proof.
  intros Hne. unfold row_entries. induction l as [| e l IH]; [reflexivity |].
  cbn [List.filter]. destruct (e_row e =? a)%Z eqn:E; cbn [negb List.filter].
  - apply Z.eqb_eq in E. destruct (e_row e =? r)%Z eqn:E'; [apply Z.eqb_eq in E'; lia | exact IH].
  - destruct (e_row e =? r)%Z; [f_equal |]; exact IH.
Qed.

(** A sorted list is its rows, one after the other. *)
Lemma rows_partition (k a : nat) (l : list entry) :
  sorted_entries l ->
  Forall (fun e => (Z.of_nat a <= e_row e < Z.of_nat (a + k))%Z) l ->
  flat_map (fun r => row_entries (Z.of_nat r) l) (seq a k) = l.
Proof.
  revert a l. induction k as [| k IH]; intros a l Hs Hr.
  - destruct l as [| e l]; [reflexivity |].
    apply List.Forall_cons_iff in Hr as [He _]. lia.
  - cbn [seq flat_map].
    set (rest := List.filter (fun e : entry => negb (e_row e =? Z.of_nat a)%Z) l).
    assert (Hsplit : l = row_entries (Z.of_nat a) l ++ rest).
    { apply split_first_row; [exact Hs |].
      eapply List.Forall_impl; [| exact Hr]. cbn. intros e He. lia. }
    assert (Hrest : flat_map (fun r => row_entries (Z.of_nat r) l) (seq (S a) k) = rest).
    { rewrite <- (IH (S a) rest).
      - rewrite !flat_map_concat_map. f_equal. apply map_ext_in.
        intros r Hin. apply in_seq in Hin. symmetry. apply row_entries_of_rest. lia.
      - now apply sorted_filter.
      - apply List.Forall_forall. intros e He. apply filter_In in He as [He Hne].
        rewrite List.Forall_forall in Hr. specialize (Hr e He).
        apply negb_true_iff, Z.eqb_neq in Hne. lia. }
    rewrite Hrest. now rewrite <- Hsplit.
Qed.



(** X8. An operator in canonical form in which every row r < n_out stores an
    entry is returned unchanged by add_nans_to_weights. *)
Theorem add_nans_identity_without_empty_rows (w : DataArray COO) :
  canonical (da_data w) ->
  (forall r, r < fst (coo_shape (da_data w)) ->
             row_entries (Z.of_nat r) (coo_entries (da_data w)) <> []) ->
  add_nans_to_weights w = w.
Proof.
  intros [Hs Hr] Hfull. rewrite (add_nans_entries w Hs).
  destruct w as [[[n_out n_in] l] dims name].
  cbn [da_data da_dims da_name coo_shape coo_entries fst] in *.
  f_equal. f_equal. unfold filled.
  etransitivity;
    [| apply (rows_partition n_out 0 l Hs);
       eapply List.Forall_impl; [| exact Hr]; cbn; intros e He; lia].
  rewrite !flat_map_concat_map. f_equal. apply map_ext_in.
  intros r Hin. apply in_seq in Hin. unfold filled_row.
  specialize (Hfull r ltac:(lia)).
  destruct (row_entries (Z.of_nat r) l); [contradiction | reflexivity].
Qed.


Lemma filled_cols_in_range (n_out n_in : nat) (l : list entry) :
  0 < n_in ->
  Forall (fun e => (0 <= e_col e < Z.of_nat n_in)%Z) l ->
  Forall (fun e => (0 <= e_col e < Z.of_nat n_in)%Z) (filled n_out l).
Proof.
  intros Hpos Hc. unfold filled. apply List.Forall_forall. intros e He.
  apply in_flat_map in He as (r & _ & He). unfold filled_row in He.
  destruct (row_entries (Z.of_nat r) l) as [| e0 R] eqn:E.
  - destruct He as [<- | []]. cbn. lia.
  - rewrite <- E in He. apply filter_In in He as [He _].
    rewrite List.Forall_forall in Hc. now apply Hc.
Qed.

(** X10. add_nans_to_weights keeps the invariants of an operator: for an
    operator in canonical form with columns within [0, n_in) and n_in >= 1,
    the result is in canonical form and its columns are within [0, n_in). *)
Theorem add_nans_keeps_operator_invariants (w : DataArray COO) :
  canonical (da_data w) ->
  cols_in_range (da_data w) ->
  0 < snd (coo_shape (da_data w)) ->
  canonical (da_data (add_nans_to_weights w)) /\
  cols_in_range (da_data (add_nans_to_weights w)).
Proof.
  intros [Hs Hr] Hc Hpos. rewrite (add_nans_entries w Hs).
  unfold canonical, cols_in_range, rows_in_range in *.
  cbn [da_data coo_entries coo_shape].
  split; [split |].
  - now apply filled_sorted.
  - eapply List.Forall_impl; [| apply (filled_from_rows 0)]. cbn. intros e He. lia.
  - now apply filled_cols_in_range.
Qed.

(** X11. Applying the operator returned by add_nans_to_weights: at a row that
    was empty the output is 0 + NaN * data[b, 0], at every other row it is
    the output of the original operator. *)
Theorem apply_after_add_nans (w : DataArray COO) (indata : ndarray) (extra : list nat)
    (shape_in shape_out : nat * nat) :
  canonical (da_data w) ->
  cols_in_range (da_data w) ->
  0 < snd (coo_shape (da_data w)) ->
  nd_shape indata = extra ++ [fst shape_in; snd shape_in] ->
  length (nd_flat indata) = shape_size (nd_shape indata) ->
  fst shape_in * snd shape_in = snd (coo_shape (da_data w)) ->
  fst shape_out * snd shape_out = fst (coo_shape (da_data w)) ->
  exists out out',
    snd (apply_weights (da_data w) indata shape_in shape_out) = Ok out /\
    snd (apply_weights (da_data (add_nans_to_weights w)) indata shape_in shape_out) = Ok out' /\
    nd_shape out' = nd_shape out /\
    forall b r, b < shape_size extra -> r < fst (coo_shape (da_data w)) ->
      let i := b * fst (coo_shape (da_data w)) + r in
      (row_entries (Z.of_nat r) (coo_entries (da_data w)) = [] ->
       nth i (nd_flat out') vzero
       = vadd vzero (vmul vnan (nth (b * snd (coo_shape (da_data w))) (nd_flat indata) vzero))) /\
      (row_entries (Z.of_nat r) (coo_entries (da_data w)) <> [] ->
       nth i (nd_flat out') vzero = nth i (nd_flat out) vzero).
Proof.
  intros [Hs Hr] Hc Hpos Hshape Hlen Hin Hout.
  destruct (apply_weights_result (da_data w) indata extra shape_in shape_out
              Hshape Hlen Hin Hout Hc Hpos) as (out & Hok & Hso & _ & Hval).
  assert (Hc' : cols_in_range (da_data (add_nans_to_weights w))).
  { rewrite (add_nans_entries w Hs). unfold cols_in_range in *.
    cbn [da_data coo_entries coo_shape]. now apply filled_cols_in_range. }
  assert (Hshape' : coo_shape (da_data (add_nans_to_weights w)) = coo_shape (da_data w))
    by now rewrite (add_nans_entries w Hs).
  destruct (apply_weights_result (da_data (add_nans_to_weights w)) indata extra
              shape_in shape_out Hshape Hlen)
    as (out' & Hok' & Hso' & _ & Hval');
    try (rewrite Hshape'; assumption); [exact Hc' |].
  exists out, out'. split; [exact Hok |]. split; [exact Hok' |]. split; [congruence |].
  intros b r Hb Hrr i. subst i.
  rewrite Hshape' in Hval'. rewrite (Hval' b r Hb Hrr), (Hval b r Hb Hrr).
  rewrite (add_nans_entries w Hs). cbn [da_data coo_entries].
  unfold row_dot. rewrite row_entries_filled by exact Hrr. unfold filled_row.
  split.
  - intros He. rewrite He. cbn [fold_left e_val e_col fst snd Z.to_nat].
    now rewrite Nat.add_0_r.
  - intros Hne. destruct (row_entries (Z.of_nat r) (coo_entries (da_data w)));
      [contradiction | reflexivity].
Qed.

End FillFacts.

(** * Further properties of _combine_weight_multipoly *)

Section CombineEdgeFacts.
Context {V : Type} `{Scalar V}.
Local Abbreviation COO := (@COO V).
Local Abbreviation ndarray := (@ndarray V).

Lemma py_range_first (m : Z) :
  (0 <= m)%Z -> exists rest, py_range (m + 1) = 0%Z :: rest.
Proof.
  intros Hm. unfold py_range.
  destruct (Z.to_nat (m + 1)) as [| n] eqn:E; [lia |].
  cbn [seq map]. eexists. reflexivity.
Qed.

(** X12. An index array whose length is not the operator's n_in is rejected:
    when its maximum is not negative, the boolean selection of the first
    group raises IndexError. *)
Theorem combine_rejects_wrong_length (weights : DataArray COO) (indexes : list Z) (m : Z) :
  da_dims weights = ["out_dim"; "in_dim"] ->
  np_max indexes = Ok m -> (0 <= m)%Z ->
  length indexes <> snd (coo_shape (da_data weights)) ->
  _combine_weight_multipoly weights indexes
  = Raise (IndexError "Boolean array size does not match the indexed dimension").
Proof.
  intros Hdims Hmax Hm Hlen. unfold _combine_weight_multipoly.
  rewrite Hmax. cbn [mbind result_bind].
  destruct (py_range_first m Hm) as (rest & ->). cbn [summed_columns].
  unfold isel. cbn [da_dims da_data]. rewrite Hdims.
  cbn [axis_of String.eqb Ascii.eqb Bool.eqb fmap option_fmap option_map].
  rewrite length_map.
  change (nth 1 (nd_shape (todense (da_data weights))) 0) with (snd (coo_shape (da_data weights))).
  apply Nat.eqb_neq in Hlen. rewrite Hlen. reflexivity.
Qed.

(** X13. An operator that has no dimension named in_dim is rejected with a
    ValueError as soon as there is a group to sum. *)
Theorem combine_needs_in_dim (weights : DataArray COO) (indexes : list Z) (m : Z) :
  axis_of (da_dims weights) "in_dim" = None ->
  np_max indexes = Ok m -> (0 <= m)%Z ->
  _combine_weight_multipoly weights indexes
  = Raise (ValueError (msg_no_dim "in_dim" (da_dims weights))).
Proof.
  intros Hdims Hmax Hm. unfold _combine_weight_multipoly.
  rewrite Hmax. cbn [mbind result_bind].
  destruct (py_range_first m Hm) as (rest & ->). cbn [summed_columns].
  unfold isel. cbn [da_dims da_data]. rewrite Hdims. reflexivity.
Qed.

End CombineEdgeFacts.

Section ConservationFacts.
Context {V : Type} `{ScalarLaws V}.
Local Abbreviation COO := (@COO V).
Local Abbreviation ndarray := (@ndarray V).

Lemma np_max_bound (a : list Z) (m : Z) :
  np_max a = Ok m -> Forall (fun x => (x <= m)%Z) a.
Proof.
  destruct a as [| x t]; [discriminate |]. cbn [np_max]. intros [= <-].
  assert (G : forall (l : list Z) (y : Z),
             (y <= fold_left Z.max l y)%Z /\ Forall (fun z => (z <= fold_left Z.max l y)%Z) l).
  { induction l as [| z l IH]; intros y; cbn [fold_left].
    - split; [lia | constructor].
    - destruct (IH (Z.max y z)) as [H1 H2]. split; [lia |].
      constructor; [lia | exact H2]. }
  destruct (G t x) as [H1 H2]. constructor; assumption.
Qed.

Lemma vsum_single_or_none (G : nat) (i : Z) (y : V) :
  (i < Z.of_nat G)%Z ->
  vsum (map (fun g => if (i =? Z.of_nat g)%Z then y else vzero) (seq 0 G))
  = if (0 <=? i)%Z then y else vzero.
Proof.
  intros Hi. destruct (0 <=? i)%Z eqn:E.
  - apply Z.leb_le in E.
    rewrite (map_ext _ (fun g => if g =? Z.to_nat i then (fun _ => y) g else vzero)).
    + apply (vsum_single 0 G (Z.to_nat i) (fun _ => y)). lia.
    + intros g. destruct (i =? Z.of_nat g)%Z eqn:E1, (g =? Z.to_nat i) eqn:E2; try reflexivity.
      * apply Z.eqb_eq in E1. apply Nat.eqb_neq in E2. lia.
      * apply Z.eqb_neq in E1. apply Nat.eqb_eq in E2. lia.
  - apply Z.leb_gt in E.
    rewrite (map_ext_in _ (fun _ => vzero)); [apply vsum_zeros |].
    intros g _. destruct (i =? Z.of_nat g)%Z eqn:E1; [apply Z.eqb_eq in E1; lia | reflexivity].
Qed.

(** Summing the groups 0 .. G-1 of a list of columns is summing the columns
    whose index is not negative. *)
Lemma sum_over_groups (f : nat -> V) (idx : nat -> Z) (G : nat) (cs : list nat) :
  Forall (fun c => (idx c < Z.of_nat G)%Z) cs ->
  vsum (map (fun g => vsum (map f (List.filter (fun c => (idx c =? Z.of_nat g)%Z) cs)))
            (seq 0 G))
  = vsum (map f (List.filter (fun c => (0 <=? idx c)%Z) cs)).
Proof.
  induction 1 as [| c cs Hc _ IH].
  - cbn [List.filter map]. apply (vsum_zeros (seq 0 G)).
  - rewrite (map_ext _ (fun g => vadd ((fun g => if (idx c =? Z.of_nat g)%Z then f c else vzero) g)
                                      ((fun g => vsum (map f (List.filter
                                          (fun c0 => (idx c0 =? Z.of_nat g)%Z) cs))) g))).
    + rewrite vsum_map_add, IH, (vsum_single_or_none G (idx c) (f c) Hc).
      cbn [List.filter]. destruct (0 <=? idx c)%Z; cbn [map].
      * now rewrite vsum_cons.
      * apply vadd_zero_l.
    + intros g. cbn [List.filter]. destruct (idx c =? Z.of_nat g)%Z; cbn [map].
      * now rewrite vsum_cons.
      * now rewrite vadd_zero_l.
Qed.

(** X14. Combination conserves the weights: in every row, the sum of the
    columns of the result is the sum of the operator's columns whose index is
    not negative (scalars forming a commutative semiring). *)
Theorem combine_conserves_row_sums (weights : DataArray COO) (indexes : list Z) (m : Z) :
  da_dims weights = ["out_dim"; "in_dim"] ->
  length indexes = snd (coo_shape (da_data weights)) ->
  np_max indexes = Ok m -> (0 <= m)%Z ->
  exists out,
    _combine_weight_multipoly weights indexes = Ok out /\
    forall r, r < fst (coo_shape (da_data weights)) ->
      vsum (map (get2 (da_data out) r) (seq 0 (Z.to_nat (m + 1))))
      = vsum (map (dense_at (coo_entries (da_data weights)) r) (kept_columns indexes)).
Proof.
  intros Hdims Hlen Hmax Hm.
  destruct (combine_result weights indexes m Hdims Hlen Hmax Hm) as (out & Hok & _ & _ & Hval).
  exists out. split; [exact Hok |].
  intros r Hr.
  rewrite (map_ext_in _ (fun g => vsum (map (dense_at (coo_entries (da_data weights)) r)
             (List.filter (fun c => (nth c indexes 0%Z =? Z.of_nat g)%Z)
                          (seq 0 (length indexes)))))).
  - apply (sum_over_groups _ (fun c => nth c indexes 0%Z)).
    apply List.Forall_forall. intros c Hc. apply in_seq in Hc.
    pose proof (np_max_bound indexes m Hmax) as Hb. rewrite List.Forall_forall in Hb.
    specialize (Hb (nth c indexes 0%Z) ltac:(apply nth_In; lia)). lia.
  - intros g Hg. apply in_seq in Hg. rewrite (Hval r g Hr) by lia. reflexivity.
Qed.

End ConservationFacts.

(** * Concrete instances of the further properties *)

Lemma ingest_stores_sorted_entries_witness :
  sorted_entries [((0, 0), 5); ((1, 1), 10)]%Z.
Proof.
  refine (proj1 (ingest_stores_sorted_entries ∅ 2 2) (SrcDataset unsorted_table)
            (weights_array (mkCOO (2, 2) [((0, 0), 5); ((1, 1), 10)]%Z)) _).
  vm_compute; reflexivity.
Defined.


Lemma ingest_rejects_ragged_columns_witness :
  exists m, read_weights ∅ (SrcTable (SrcDataset ragged_table)) 2 2 = Raise (ValueError m).
Proof.
  destruct (ingest_rejects_ragged_columns ∅ (SrcDataset ragged_table)
              [1; 2]%Z [1]%Z [5]%Z 2 2) as (m & Hm & _).
  - left. exists ragged_table. repeat split. left. reflexivity.
  - left. cbn. lia.
  - exists m. exact Hm.
Defined.

Lemma ingest_labels_operator_witness :
  da_dims (weights_array small_operator) = ["out_dim"; "in_dim"] /\
  da_name (weights_array small_operator) = Some "weights".
Proof.
  refine (ingest_labels_operator ∅ (SrcCOO small_operator) 7 7 (weights_array small_operator)
            _ eq_refl).
  intros w0. discriminate.
Defined.

Lemma apply_weights_needs_two_dimensions_witness :
  snd (apply_weights small_operator (mk_ndarray [2] [10; 20]%Z true) (1, 2) (3, 1))
  = Raise (AssertionError
      "The horizontal shape of input data is (2,), different from that ofthe regridder (1, 2)!").
Proof.
  refine (apply_weights_needs_two_dimensions small_operator
            (mk_ndarray [2] [10; 20]%Z true) (1, 2) (3, 1) _).
  cbn. lia.
Defined.

Lemma apply_weights_empty_row_gives_zero_witness :
  exists out,
    snd (apply_weights small_operator small_field (1, 2) (3, 1)) = Ok out /\
    nth 4 (nd_flat out) 0%Z = 0%Z.
Proof.
  destruct (apply_weights_empty_row_gives_zero small_operator small_field [2] (1, 2) (3, 1) 1
              eq_refl eq_refl eq_refl eq_refl
              ltac:(repeat (apply List.Forall_cons; [cbn; lia |]); apply List.Forall_nil)
              ltac:(cbn; lia) ltac:(cbn; lia) eq_refl) as (out & Hok & Hz).
  exists out. split; [exact Hok |]. exact (Hz 1 ltac:(cbn; lia)).
Defined.

Lemma apply_weights_additive_witness :
  exists out_a out_ab,
    snd (apply_weights small_operator small_field (1, 2) (3, 1)) = Ok out_a /\
    snd (apply_weights small_operator (nd_add small_field small_field) (1, 2) (3, 1)) = Ok out_ab /\
    nth 5 (nd_flat out_ab) 0%Z = (nth 5 (nd_flat out_a) 0 + nth 5 (nd_flat out_a) 0)%Z.
Proof.
  assert (Hd : forall u v w : Z, vmul u (vadd v w) = vadd (vmul u v) (vmul u w)).
  { intros u v w. change (u * (v + w) = u * v + u * w)%Z. lia. }
  destruct (apply_weights_additive small_operator small_field small_field [2] (1, 2) (3, 1)
              Hd eq_refl eq_refl eq_refl eq_refl eq_refl eq_refl
              ltac:(repeat (apply List.Forall_cons; [cbn; lia |]); apply List.Forall_nil)
              ltac:(cbn; lia))
    as (oa & ob & oab & Ha & Hb & Hab & _ & Hsum).
  exists oa, oab. split; [exact Ha |]. split; [exact Hab |].
  assert (E : ob = oa) by congruence. subst ob.
  exact (Hsum 1 2 ltac:(cbn; lia) ltac:(cbn; lia)).
Defined.

Lemma add_nans_identity_without_empty_rows_witness :
  add_nans_to_weights full_weights = full_weights.
Proof.
  apply add_nans_identity_without_empty_rows.
  - split; [repeat constructor | repeat constructor; cbn; lia].
  - intros r Hr. cbn in Hr. destruct r as [| [| r]]; [discriminate | discriminate | lia].
Defined.


Lemma add_nans_keeps_operator_invariants_witness :
  canonical (da_data (add_nans_to_weights example_weights)) /\
  cols_in_range (da_data (add_nans_to_weights example_weights)).
Proof.
  apply add_nans_keeps_operator_invariants.
  - split; [repeat constructor | repeat constructor; cbn; lia].
  - repeat (apply List.Forall_cons; [cbn; lia |]); apply List.Forall_nil.
  - cbn. lia.
Defined.

Lemma apply_after_add_nans_witness :
  exists out',
    snd (apply_weights (da_data (add_nans_to_weights example_weights)) example_field
           (1, 2) (3, 1)) = Ok out' /\
    nth 1 (nd_flat out') (Num 0) = NaN.
Proof.
  destruct (apply_after_add_nans example_weights example_field [] (1, 2) (3, 1))
    as (out & out' & _ & Hok' & _ & Hval).
  - split; [repeat constructor | repeat constructor; cbn; lia].
  - repeat (apply List.Forall_cons; [cbn; lia |]); apply List.Forall_nil.
  - cbn. lia.
  - reflexivity.
  - reflexivity.
  - reflexivity.
  - reflexivity.
  - exists out'. split; [exact Hok' |].
    exact (proj1 (Hval 0 1 ltac:(cbn; lia) ltac:(cbn; lia)) eq_refl).
Defined.

Lemma combine_rejects_wrong_length_witness :
  _combine_weight_multipoly example_operator [0; 0]%Z
  = Raise (IndexError "Boolean array size does not match the indexed dimension").
Proof.
  refine (combine_rejects_wrong_length example_operator [0; 0]%Z 0%Z eq_refl eq_refl _ _).
  - lia.
  - cbn. lia.
Defined.

Lemma combine_needs_in_dim_witness :
  _combine_weight_multipoly unlabelled_operator [0; 0]%Z
  = Raise (ValueError (msg_no_dim "in_dim" ["a"; "b"])).
Proof.
  refine (combine_needs_in_dim unlabelled_operator [0; 0]%Z 0%Z eq_refl eq_refl _). lia.
Defined.

Lemma combine_conserves_row_sums_witness :
  exists out,
    _combine_weight_multipoly example_operator [1; -1; 0]%Z = Ok out /\
    (get2 (da_data out) 1 0 + get2 (da_data out) 1 1)%Z = 7%Z.
Proof.
  destruct (combine_conserves_row_sums example_operator [1; -1; 0]%Z 1%Z
              eq_refl eq_refl eq_refl ltac:(lia)) as (out & Hok & Hsum).
  exists out. split; [exact Hok |].
  exact (Hsum 1 ltac:(cbn; lia)).
Defined.
